(** * hack/sizeof.c: the userfaultfd ABI reporter

    The program is one [main] that issues nineteen [printf] calls through
    two macros, [PRINT_VAL] and [PRINT_SIZE], and returns 0.  The constants
    and structure types it reports come from the platform header
    <linux/userfaultfd.h>; they are taken here as a parameter of the build
    (record [header]).

    The development has four layers:
    - the rendering of unsigned numbers ([utoa]) and its inverse ([atou]);
    - the interpretation of a printf format string ([parse_format],
      [sprintf]) and the C types the conversions expect;
    - the process state ([world]) and the monad [M] in which [printf] runs;
    - the macros and [main], followed by the theorems. *)

From Stdlib Require Import NArith ZArith List String Ascii Bool Arith Lia.
Import ListNotations.

Local Open Scope string_scope.

(** ** Characters and strings *)

(** The newline character, written [\n] in the C source. *)
Definition nl : ascii := ascii_of_nat 10.

Definition space : ascii := " "%char.

Fixpoint string_forall (p : ascii -> bool) (s : string) : bool :=
  match s with
  | EmptyString => true
  | String c r => p c && string_forall p r
  end.

Fixpoint spaces (n : nat) : string :=
  match n with
  | O => EmptyString
  | S k => String space (spaces k)
  end.

(** Lines of a text: every newline ends a line; a last line without a
    newline counts too; an empty text has no line. *)
Fixpoint lines (s : string) : list string :=
  match s with
  | EmptyString => []
  | String c r =>
      if Ascii.eqb c nl then EmptyString :: lines r
      else match lines r with
           | [] => [String c EmptyString]
           | l :: ls => String c l :: ls
           end
  end.

(** ** Unsigned numbers as digit strings *)

Module Digits.

(** The digit alphabet of printf's [u] and [x] conversions: lower case. *)
Definition digit_char (d : N) : ascii :=
  match d with
  | 0%N => "0" | 1%N => "1" | 2%N => "2" | 3%N => "3"
  | 4%N => "4" | 5%N => "5" | 6%N => "6" | 7%N => "7"
  | 8%N => "8" | 9%N => "9" | 10%N => "a" | 11%N => "b"
  | 12%N => "c" | 13%N => "d" | 14%N => "e" | _ => "f"
  end%char.

Definition is_decimal_digit (c : ascii) : bool :=
  let n := N_of_ascii c in (48 <=? n)%N && (n <=? 57)%N.

Definition is_lower_hex_digit (c : ascii) : bool :=
  let n := N_of_ascii c in
  is_decimal_digit c || ((97 <=? n)%N && (n <=? 102)%N).

(** Value of a character read as a digit in [base]; upper-case hexadecimal
    letters are accepted by a reader, as strtoul does. *)
Definition digit_val (base : N) (c : ascii) : option N :=
  let n := N_of_ascii c in
  let v :=
    if is_decimal_digit c then Some (n - 48)%N
    else if (97 <=? n)%N && (n <=? 102)%N then Some (n - 87)%N
    else if (65 <=? n)%N && (n <=? 70)%N then Some (n - 55)%N
    else None in
  match v with
  | Some d => if (d <? base)%N then Some d else None
  | None => None
  end.

(** The conversion loop of printf: digits are produced from the least
    significant one and pushed in front of what is already there, until the
    quotient is zero ([do ... while (n != 0)]).  [fuel] bounds the number of
    digits. *)
Fixpoint utoa_aux (base : N) (fuel : nat) (n : N) (acc : string) : string :=
  match fuel with
  | O => acc
  | S fuel' =>
      let acc' := String (digit_char (n mod base)) acc in
      if (n / base =? 0)%N then acc'
      else utoa_aux base fuel' (n / base) acc'
  end.

(** A number has no more digits than bits. *)
Definition utoa (base : N) (n : N) : string :=
  utoa_aux base (S (N.to_nat (N.size n))) n EmptyString.

Fixpoint atou_aux (base : N) (s : string) (acc : N) : option N :=
  match s with
  | EmptyString => Some acc
  | String c r =>
      match digit_val base c with
      | Some d => atou_aux base r (acc * base + d)%N
      | None => None
      end
  end.

(** Reading a non-empty digit string back; anything else is rejected. *)
Definition atou (base : N) (s : string) : option N :=
  match s with
  | EmptyString => None
  | _ => atou_aux base s 0%N
  end.

End Digits.

(** ** printf formats *)

(** The C types that matter to the conversions used. *)
Inductive ctype : Type :=
| TCharPtr
| TUShort
| TInt
| TUInt
| TLong
| TULong
| TULongLong.

Definition ctype_eqb (a b : ctype) : bool :=
  match a, b with
  | TCharPtr, TCharPtr | TUShort, TUShort | TInt, TInt | TUInt, TUInt
  | TLong, TLong | TULong, TULong | TULongLong, TULongLong => true
  | _, _ => false
  end.

(** Default argument promotion of a variadic argument: what is narrower
    than [int] becomes [int]. *)
Definition promote (t : ctype) : ctype :=
  match t with
  | TUShort => TInt
  | _ => t
  end.

Inductive length_modifier : Type := LenNone | LenL | LenZ.

Inductive conversion : Type := ConvS | ConvU | ConvX.

(** One conversion specification: [%], flag [-], field width (0 when
    absent), length modifier, conversion letter. *)
Record directive : Type := mkDirective {
  left_adjust : bool;
  width : nat;
  lenmod : length_modifier;
  conv : conversion
}.

Inductive item : Type :=
| Lit (c : ascii)
| Dir (d : directive).

(** A variadic argument: its C type and its value. *)
Inductive carg : Type :=
| ArgStr (s : string)
| ArgUInt (t : ctype) (v : N).

Definition carg_type (a : carg) : ctype :=
  match a with
  | ArgStr _ => TCharPtr
  | ArgUInt t _ => t
  end.

Module Format.

Definition empty_directive : directive :=
  mkDirective false 0 LenNone ConvS.

Definition digit_of (c : ascii) : option nat :=
  if Digits.is_decimal_digit c then Some (nat_of_ascii c - 48) else None.

(** Scanner state: in plain text, or inside a conversion specification
    whose flags, width and length modifier read so far are kept. *)
Inductive scan_state : Type :=
| InText
| InSpec (d : directive) (seen_width seen_len : bool).

(** One pass over the format string.  [None] is a malformed format, or one
    that uses what is not modelled here (the [0] flag, [%%], other
    conversions). *)
Fixpoint scan (st : scan_state) (fmt : string) : option (list item) :=
  match fmt with
  | EmptyString =>
      match st with
      | InText => Some []
      | InSpec _ _ _ => None
      end
  | String c r =>
      match st with
      | InText =>
          if Ascii.eqb c "%" then scan (InSpec empty_directive false false) r
          else option_map (cons (Lit c)) (scan InText r)
      | InSpec d sw sl =>
          let finish cv :=
            option_map
              (cons (Dir (mkDirective (left_adjust d) (width d) (lenmod d) cv)))
              (scan InText r) in
          if Ascii.eqb c "s" then finish ConvS
          else if Ascii.eqb c "u" then finish ConvU
          else if Ascii.eqb c "x" then finish ConvX
          else if Ascii.eqb c "l" then
            if sl then None
            else scan (InSpec (mkDirective (left_adjust d) (width d) LenL (conv d))
                         true true) r
          else if Ascii.eqb c "z" then
            if sl then None
            else scan (InSpec (mkDirective (left_adjust d) (width d) LenZ (conv d))
                         true true) r
          else if Ascii.eqb c "-" then
            if sw then None
            else scan (InSpec (mkDirective true (width d) (lenmod d) (conv d))
                         false false) r
          else
            match digit_of c with
            | Some k =>
                if sl || (Nat.eqb k 0 && negb sw) then None
                else scan (InSpec (mkDirective (left_adjust d) (10 * width d + k)
                                     (lenmod d) (conv d)) true false) r
            | None => None
            end
      end
  end.

Definition parse_format (fmt : string) : option (list item) := scan InText fmt.

(** Padding to the field width: on the right with flag [-], on the left
    otherwise; a text at least as wide as the field is left alone. *)
Definition pad (d : directive) (s : string) : string :=
  match width d with
  | O => s
  | S _ =>
      let fill := spaces (width d - String.length s) in
      if left_adjust d then s ++ fill else fill ++ s
  end.

(** The text a conversion produces for its argument.  A string conversion
    with a number, or a numeric one with a string, has no defined result.
    A number is printed by its value; whether its C type is the one the
    length modifier requires is the question [Typing] answers. *)
Definition convert (d : directive) (a : carg) : option string :=
  match conv d, a with
  | ConvS, ArgStr s => Some (pad d s)
  | ConvU, ArgUInt _ v => Some (pad d (Digits.utoa 10 v))
  | ConvX, ArgUInt _ v => Some (pad d (Digits.utoa 16 v))
  | _, _ => None
  end.

(** Conversions consume the arguments from left to right; arguments left
    over are ignored, a missing one is an error. *)
Fixpoint render (items : list item) (args : list carg) : option string :=
  match items with
  | [] => Some EmptyString
  | Lit c :: r => option_map (String c) (render r args)
  | Dir d :: r =>
      match args with
      | [] => None
      | a :: args' =>
          match convert d a, render r args' with
          | Some s, Some t => Some (s ++ t)
          | _, _ => None
          end
      end
  end.

Definition sprintf (fmt : string) (args : list carg) : option string :=
  match parse_format fmt with
  | Some items => render items args
  | None => None
  end.

End Format.

(** ** Types expected by the conversions *)

Module Typing.

(** The argument type a conversion specification requires; [size_t] is the
    platform's typedef.  [%ls] (wide strings) is outside the model. *)
Definition expected_type (size_t : ctype) (d : directive) : option ctype :=
  match conv d, lenmod d with
  | ConvS, LenNone => Some TCharPtr
  | ConvS, _ => None
  | _, LenNone => Some TUInt
  | _, LenL => Some TULong
  | _, LenZ => Some size_t
  end.

Definition arg_conforms (size_t : ctype) (d : directive) (a : carg) : bool :=
  match expected_type size_t d with
  | Some t => ctype_eqb t (promote (carg_type a))
  | None => false
  end.

(** Every conversion of the format meets an argument of the type it
    requires. *)
Fixpoint args_conform (size_t : ctype) (items : list item) (args : list carg)
  : bool :=
  match items with
  | [] => true
  | Lit _ :: r => args_conform size_t r args
  | Dir d :: r =>
      match args with
      | [] => false
      | a :: args' => arg_conforms size_t d a && args_conform size_t r args'
      end
  end.

Definition call_conforms (size_t : ctype) (call : string * list carg) : bool :=
  match Format.parse_format (fst call) with
  | Some items => args_conform size_t items (snd call)
  | None => false
  end.

(** The argument types a format requires, conversion by conversion. *)
Fixpoint item_types (size_t : ctype) (items : list item) : option (list ctype) :=
  match items with
  | [] => Some []
  | Lit _ :: r => item_types size_t r
  | Dir d :: r =>
      match expected_type size_t d, item_types size_t r with
      | Some t, Some ts => Some (t :: ts)
      | _, _ => None
      end
  end.

Definition expected_types (size_t : ctype) (fmt : string) : option (list ctype) :=
  match Format.parse_format fmt with
  | Some items => item_types size_t items
  | None => None
  end.

End Typing.

(** ** C string literals *)

(** The escape sequences of a C string literal, as the compiler reads
    them: backslash-n is the newline, backslash-t the tab, a doubled
    backslash one backslash. *)
Fixpoint c_literal (s : string) : string :=
  match s with
  | EmptyString => EmptyString
  | String c r =>
      if Ascii.eqb c "\" then
        match r with
        | String e r' =>
            if Ascii.eqb e "n" then String nl (c_literal r')
            else if Ascii.eqb e "t" then String (ascii_of_nat 9) (c_literal r')
            else String e (c_literal r')
        | EmptyString => String c EmptyString
        end
      else String c (c_literal r)
  end.

(** ** The build: what <linux/userfaultfd.h> and the ABI provide *)

Record header : Type := mkHeader {
  size_t : ctype;                   (* the typedef behind sizeof *)
  macro_value : string -> N;        (* value of an operation identifier *)
  macro_ctype : string -> ctype;    (* C type of its expansion *)
  sizeof_struct : string -> N       (* sizeof (struct tag) *)
}.

(** ** The process *)

(** The signals whose default action ends a process that writes: a pipe
    or socket without reader, a file grown past the size limit. *)
Inductive signal : Type := SIGPIPE | SIGXFSZ.

(** How standard output answers one request of the program (a printf
    call, or the flush when the process exits): it takes the text, it
    reports an error, or the write raises a signal.  The source installs no
    handler, so such a signal ends the process.  Behind a buffering stream
    a call that only fills the buffer is a request the stream takes; the
    error or the signal of the write shows at the request that writes, a
    later call or the flush at exit. *)
Inductive response : Type :=
| Taken
| Refused
| Fatal (s : signal).

Record world : Type := mkWorld {
  argv : list string;
  environ : list string;
  stdin : string;
  stdout : string;                      (* text the stream has taken *)
  stdout_response : nat -> response;    (* answer to the k-th request *)
  calls : list (string * list carg)     (* printf calls made so far *)
}.

(** The stream takes the [k]-th request. *)
Definition stdout_writable (w : world) : nat -> bool :=
  fun k =>
    match stdout_response w k with
    | Taken => true
    | _ => false
    end.

(** How a computation on the process state ends: it returns a value, the
    process is ended by a signal, or the behaviour is undefined. *)
Inductive outcome (A : Type) : Type :=
| Returned (r : A * world)
| Killed (s : signal) (w : world)
| Undefined.

Arguments Returned {A} r.
Arguments Killed {A} s w.
Arguments Undefined {A}.

Definition M (A : Type) : Type := world -> outcome A.

Definition ret {A : Type} (a : A) : M A := fun w => Returned (a, w).

(** Nothing runs after the process has been killed. *)
Definition bind {A B : Type} (m : M A) (k : A -> M B) : M B :=
  fun w =>
    match m w with
    | Returned (a, w') => k a w'
    | Killed s w' => Killed s w'
    | Undefined => Undefined
    end.

Declare Scope proc_scope.
Delimit Scope proc_scope with proc.
Notation "m ;; k" := (bind m (fun _ => k))
  (at level 61, right associativity) : proc_scope.
Local Open Scope proc_scope.

Definition log_call (fmt : string) (args : list carg) (w : world) : world :=
  mkWorld (argv w) (environ w) (stdin w) (stdout w) (stdout_response w)
          (calls w ++ [(fmt, args)]).

Definition emit (s : string) (w : world) : world :=
  mkWorld (argv w) (environ w) (stdin w) (stdout w ++ s) (stdout_response w)
          (calls w).

(** printf: formats, then hands the text to standard output.  It returns
    the number of characters, or a negative value when the stream reports
    an error; a write that raises a signal ends the process inside the
    call. *)
Definition printf (fmt : string) (args : list carg) : M Z :=
  fun w =>
    match Format.sprintf fmt args with
    | None => Undefined
    | Some s =>
        match stdout_response w (List.length (calls w)) with
        | Taken =>
            Returned (Z.of_nat (String.length s), emit s (log_call fmt args w))
        | Refused => Returned ((-1)%Z, log_call fmt args w)
        | Fatal sg => Killed sg (log_call fmt args w)
        end
    end.

(** How a process ends: with an exit status, or by a signal. *)
Inductive termination : Type :=
| Exited (status : Z)
| Signaled (s : signal).

(** Leaving [main] with [return status]: the C runtime flushes standard
    output and exits with that status; an error of the flush is not
    reported anywhere, a signal raised by its write ends the process. *)
Definition exit (status : Z) (w : world) : termination :=
  match stdout_response w (List.length (calls w)) with
  | Fatal sg => Signaled sg
  | _ => Exited status
  end.

(** ** The program *)

Section Program.

Variable hdr : header.

(** [#define PRINT_SIZE(s) printf("%-20s %zu\n", #s, sizeof(struct s))] *)
Definition PRINT_SIZE (s : string) : M Z :=
  printf (c_literal "%-20s %zu\n")
         [ArgStr s; ArgUInt (size_t hdr) (sizeof_struct hdr s)].

(** [#define PRINT_VAL(s) printf("%-20s %lx\n", #s, s)] *)
Definition PRINT_VAL (s : string) : M Z :=
  printf (c_literal "%-20s %lx\n")
         [ArgStr s; ArgUInt (macro_ctype hdr s) (macro_value hdr s)].

Definition main : M Z :=
  PRINT_VAL "UFFDIO_REGISTER" ;;
  PRINT_VAL "UFFDIO_UNREGISTER" ;;
  PRINT_VAL "UFFDIO_WAKE" ;;
  PRINT_VAL "UFFDIO_COPY" ;;
  PRINT_VAL "UFFDIO_ZEROPAGE" ;;
  PRINT_VAL "UFFDIO_MOVE" ;;
  PRINT_VAL "UFFDIO_WRITEPROTECT" ;;
  PRINT_VAL "UFFDIO_CONTINUE" ;;
  PRINT_VAL "UFFDIO_POISON" ;;
  PRINT_SIZE "uffd_msg" ;;
  PRINT_SIZE "uffdio_api" ;;
  PRINT_SIZE "uffdio_range" ;;
  PRINT_SIZE "uffdio_register" ;;
  PRINT_SIZE "uffdio_copy" ;;
  PRINT_SIZE "uffdio_zeropage" ;;
  PRINT_SIZE "uffdio_writeprotect" ;;
  PRINT_SIZE "uffdio_continue" ;;
  PRINT_SIZE "uffdio_poison" ;;
  PRINT_SIZE "uffdio_move" ;;
  ret 0%Z.

(** The process: [main], then the exit of the C runtime. *)
Definition run (w : world) : option termination :=
  match main w with
  | Returned (status, w') => Some (exit status w')
  | Killed sg _ => Some (Signaled sg)
  | Undefined => None
  end.

End Program.

(** ** What the specification lists *)

(** The nine operation identifiers, in the order register, unregister,
    wake, copy, zero-page, move, write-protect, continue, poison. *)
Definition identifier_names : list string :=
  ["UFFDIO_REGISTER"; "UFFDIO_UNREGISTER"; "UFFDIO_WAKE"; "UFFDIO_COPY";
   "UFFDIO_ZEROPAGE"; "UFFDIO_MOVE"; "UFFDIO_WRITEPROTECT";
   "UFFDIO_CONTINUE"; "UFFDIO_POISON"].

(** The ten structures, in the order message, API, range, register, copy,
    zero-page, write-protect, continue, poison, move. *)
Definition struct_names : list string :=
  ["uffd_msg"; "uffdio_api"; "uffdio_range"; "uffdio_register";
   "uffdio_copy"; "uffdio_zeropage"; "uffdio_writeprotect";
   "uffdio_continue"; "uffdio_poison"; "uffdio_move"].

Definition checklist : list string := identifier_names ++ struct_names.

(** A name in a field of twenty columns, left-aligned. *)
Definition field20 (name : string) : string :=
  name ++ spaces (20 - String.length name).

(** An output line as the specification describes it: the padded name, one
    space, the value. *)
Definition text_line (name value : string) : string :=
  field20 name ++ String space value.

Definition identifier_line (hdr : header) (name : string) : string :=
  text_line name (Digits.utoa 16 (macro_value hdr name)).

Definition size_line (hdr : header) (name : string) : string :=
  text_line name (Digits.utoa 10 (sizeof_struct hdr name)).

Definition expected_lines (hdr : header) : list string :=
  map (identifier_line hdr) identifier_names ++ map (size_line hdr) struct_names.

(** A text made of lines, each ended by a newline. *)
Fixpoint unlines (ls : list string) : string :=
  match ls with
  | [] => EmptyString
  | l :: r => l ++ String nl (unlines r)
  end.

(** The lines a stream lets through, when the first of them is its
    [k]-th write. *)
Fixpoint accepted (ok : nat -> bool) (k : nat) (ls : list string) : list string :=
  match ls with
  | [] => []
  | l :: r => if ok k then l :: accepted ok (S k) r else accepted ok (S k) r
  end.

(** Reading a line back: the name field runs to the first space, the value
    field starts at the first character after the spaces that follow. *)
Fixpoint name_field (l : string) : string :=
  match l with
  | EmptyString => EmptyString
  | String c r => if Ascii.eqb c space then EmptyString else String c (name_field r)
  end.

Fixpoint after_name (l : string) : string :=
  match l with
  | EmptyString => EmptyString
  | String c r => if Ascii.eqb c space then l else after_name r
  end.

Fixpoint skip_spaces (l : string) : string :=
  match l with
  | EmptyString => EmptyString
  | String c r => if Ascii.eqb c space then skip_spaces r else l
  end.

Definition value_field (l : string) : string := skip_spaces (after_name l).

(** Column (counted from 1) at which the value field starts. *)
Definition value_column (l : string) : nat :=
  S (String.length l - String.length (value_field l)).

Definition is_upper_or_underscore (c : ascii) : bool :=
  let n := N_of_ascii c in ((65 <=? n)%N && (n <=? 90)%N) || (n =? 95)%N.

Definition is_lower_or_underscore (c : ascii) : bool :=
  let n := N_of_ascii c in ((97 <=? n)%N && (n <=? 122)%N) || (n =? 95)%N.

Definition not_space (c : ascii) : bool := negb (Ascii.eqb c space).

Definition not_nl (c : ascii) : bool := negb (Ascii.eqb c nl).

Definition starts_with_non_space (s : string) : bool :=
  match s with
  | EmptyString => false
  | String c _ => not_space c
  end.

(** The calls [main] makes, as the macros expand. *)
Definition val_call (hdr : header) (s : string) : string * list carg :=
  (c_literal "%-20s %lx\n",
   [ArgStr s; ArgUInt (macro_ctype hdr s) (macro_value hdr s)]).

Definition size_call (hdr : header) (s : string) : string * list carg :=
  (c_literal "%-20s %zu\n",
   [ArgStr s; ArgUInt (size_t hdr) (sizeof_struct hdr s)]).

Definition main_calls (hdr : header) : list (string * list carg) :=
  map (val_call hdr) identifier_names ++ map (size_call hdr) struct_names.

(** Sequential composition of a list of statements, then a return. *)
Fixpoint sequence (ms : list (M Z)) (status : Z) : M Z :=
  match ms with
  | [] => ret status
  | m :: r => (m ;; sequence r status)%proc
  end.

(** Two sample builds and a sample process. *)
Definition sample_values (s : string) : N :=
  if String.eqb s "UFFDIO_REGISTER" then 3223366144
  else if String.eqb s "UFFDIO_UNREGISTER" then 2148575745
  else if String.eqb s "UFFDIO_WAKE" then 2148575746
  else if String.eqb s "UFFDIO_COPY" then 3223890435
  else if String.eqb s "UFFDIO_ZEROPAGE" then 3223366148
  else if String.eqb s "UFFDIO_MOVE" then 3223890437
  else if String.eqb s "UFFDIO_WRITEPROTECT" then 3222841862
  else if String.eqb s "UFFDIO_CONTINUE" then 3223366151
  else if String.eqb s "UFFDIO_POISON" then 3223366152
  else 0.

Definition sample_sizes (s : string) : N :=
  if String.eqb s "uffd_msg" then 32
  else if String.eqb s "uffdio_api" then 24
  else if String.eqb s "uffdio_range" then 16
  else if String.eqb s "uffdio_register" then 32
  else if String.eqb s "uffdio_copy" then 40
  else if String.eqb s "uffdio_zeropage" then 32
  else if String.eqb s "uffdio_writeprotect" then 24
  else if String.eqb s "uffdio_continue" then 32
  else if String.eqb s "uffdio_poison" then 32
  else if String.eqb s "uffdio_move" then 40
  else 0.

(** A build where [size_t] and the identifiers are [unsigned long]. *)
Definition lp64_header : header :=
  mkHeader TULong sample_values (fun _ => TULong) sample_sizes.

(** A build where [size_t] and the identifiers are [unsigned int]. *)
Definition ilp32_header : header :=
  mkHeader TUInt sample_values (fun _ => TUInt) sample_sizes.

Definition quiet_world : world :=
  mkWorld ["sizeof"] [] EmptyString EmptyString (fun _ => Taken) [].

Definition busy_world : world :=
  mkWorld ["sizeof"; "--help"; "extra"] ["HOME=/root"; "LANG=C"] "typed input"
          EmptyString (fun _ => Taken) [].

(** Standard output reports an error at every request. *)
Definition broken_world : world :=
  mkWorld ["sizeof"] [] EmptyString EmptyString (fun _ => Refused) [].



(** What reading the digits of [n] does to the accumulator [a] of the
    reader [atou_aux]. *)
Fixpoint shifted (base : N) (fuel : nat) (n a : N) : N :=
  match fuel with
  | O => a
  | S fuel' =>
      if (n / base =? 0)%N then (a * base + n mod base)%N
      else (shifted base fuel' (n / base) a * base + n mod base)%N
  end.

(** One printf call whose text is known: the call is logged, and the text
    reaches standard output when the stream takes it. *)
Definition write1 (c : string * list carg) (s : string) (w : world) : world :=
  if stdout_writable w (List.length (calls w))
  then emit s (log_call (fst c) (snd c) w)
  else log_call (fst c) (snd c) w.

(** A run of printf calls, each printing one line and its newline. *)
Fixpoint write_all (cls : list ((string * list carg) * string)) (w : world)
  : world :=
  match cls with
  | [] => w
  | (c, l) :: r => write_all r (write1 c (l ++ String nl EmptyString) w)
  end.

(** One statement of a run of printf calls: a write that raises a signal
    ends the process with the call made; otherwise the run goes on. *)
Fixpoint run_writes (cls : list ((string * list carg) * string)) (status : Z)
         (w : world) : outcome Z :=
  match cls with
  | [] => Returned (status, w)
  | (c, l) :: r =>
      match stdout_response w (List.length (calls w)) with
      | Fatal sg => Killed sg (log_call (fst c) (snd c) w)
      | _ => run_writes r status (write1 c (l ++ String nl EmptyString) w)
      end
  end.

(** The first of the [n] requests from the [k]-th on that raises a signal,
    counted from [k], and the signal. *)
Fixpoint first_fatal (resp : nat -> response) (k n : nat)
  : option (nat * signal) :=
  match n with
  | O => None
  | S n' =>
      match resp k with
      | Fatal sg => Some (0, sg)
      | _ =>
          match first_fatal resp (S k) n' with
          | Some (i, sg) => Some (S i, sg)
          | None => None
          end
      end
  end.

(** What an observer of the process sees of a run: how [main] ended (its
    status, or the signal), standard output, and the calls made. *)
Definition observe (r : outcome Z)
  : option ((Z + signal) * string * list (string * list carg)) :=
  match r with
  | Returned (status, w) => Some (inl status, stdout w, calls w)
  | Killed sg w => Some (inr sg, stdout w, calls w)
  | Undefined => None
  end.

(** The text on standard output when a computation has ended. *)
Definition final_stdout (r : outcome Z) : option string :=
  match r with
  | Returned (_, w) => Some (stdout w)
  | Killed _ w => Some (stdout w)
  | Undefined => None
  end.

(** A line shows [name] left-aligned in a field of at least twenty
    columns. *)
Definition name_padded (name l : string) : Prop :=
  prefix (field20 name) l = true /\
  20 <= String.length (field20 name) /\
  name_field l = name.

(** An identifier line: padded name, then the value in lower-case
    hexadecimal without prefix. *)
Definition identifier_line_ok (hdr : header) (name l : string) : Prop :=
  name_padded name l /\
  string_forall Digits.is_lower_hex_digit (value_field l) = true /\
  prefix "0x" (value_field l) = false /\
  Digits.atou 16 (value_field l) = Some (macro_value hdr name).

(** A size line: padded name, then the size in decimal. *)
Definition size_line_ok (hdr : header) (name l : string) : Prop :=
  name_padded name l /\
  string_forall Digits.is_decimal_digit (value_field l) = true /\
  Digits.atou 10 (value_field l) = Some (sizeof_struct hdr name).

(** A line is its name in exactly twenty columns, one space, and a value
    that therefore starts in column 22. *)
Definition aligned (name l : string) : Prop :=
  l = field20 name ++ String space (value_field l) /\
  String.length (field20 name) = 20 /\
  starts_with_non_space (value_field l) = true /\
  value_column l = 22.

(** Case analysis on a digit below sixteen. *)
Ltac digit_cases d H :=
  let E := fresh "E" in
  assert (E : (d = 0 \/ d = 1 \/ d = 2 \/ d = 3 \/ d = 4 \/ d = 5 \/ d = 6 \/
               d = 7 \/ d = 8 \/ d = 9 \/ d = 10 \/ d = 11 \/ d = 12 \/
               d = 13 \/ d = 14 \/ d = 15)%N) by lia;
  repeat (destruct E as [E|E]; [subst d|]); [..|subst d].

(** A statement, run in [w], is defined and appends to standard output
    exactly the line [l] and its newline. *)
Definition prints_line (m : M Z) (w : world) (l : string) : Prop :=
  exists r w',
    m w = Returned (r, w') /\
    stdout w' = stdout w ++ l ++ String nl EmptyString.

(** A macro argument is one token: it has no space and no newline. *)
Definition is_token (s : string) : bool :=
  string_forall not_space s && string_forall not_nl s.

(** * Lemmas *)

(** ** Strings *)

Section StringFacts.

Lemma app_nil_r_str (s : string) : s ++ EmptyString = s.
Proof. induction s as [|c s IH]; simpl; [reflexivity | now rewrite IH]. Qed.

Lemma app_assoc_str (a b c : string) : (a ++ b) ++ c = a ++ (b ++ c).
Proof. induction a as [|x a IH]; simpl; [reflexivity | now rewrite IH]. Qed.

Lemma length_app_str (a b : string) :
  String.length (a ++ b) = String.length a + String.length b.
Proof. induction a as [|x a IH]; simpl; [reflexivity | now rewrite IH]. Qed.

Lemma length_spaces (n : nat) : String.length (spaces n) = n.
Proof. induction n as [|n IH]; simpl; [reflexivity | now rewrite IH]. Qed.

Lemma string_forall_app (p : ascii -> bool) (a b : string) :
  string_forall p (a ++ b) = string_forall p a && string_forall p b.
Proof.
  induction a as [|x a IH]; simpl; [reflexivity|].
  now rewrite IH, andb_assoc.
Qed.

Lemma string_forall_impl (p q : ascii -> bool) (s : string) :
  (forall c, p c = true -> q c = true) ->
  string_forall p s = true -> string_forall q s = true.
Proof.
  intros Hpq. induction s as [|c s IH]; simpl; [reflexivity|].
  intros H. apply andb_true_iff in H as [Hc Hs].
  now rewrite (Hpq _ Hc), (IH Hs).
Qed.

Lemma string_forall_spaces (n : nat) : string_forall not_nl (spaces n) = true.
Proof. induction n as [|n IH]; simpl; [reflexivity | exact IH]. Qed.

(** A line without newline, followed by a newline, is the first line. *)
Lemma lines_app_nl (l r : string) :
  string_forall not_nl l = true ->
  lines (l ++ String nl r) = l :: lines r.
Proof.
  induction l as [|c l IH]; simpl.
  - reflexivity.
  - intros H. apply andb_true_iff in H as [Hc Hl].
    unfold not_nl in Hc. apply negb_true_iff in Hc. rewrite Hc.
    now rewrite (IH Hl).
Qed.

Lemma lines_unlines (ls : list string) :
  Forall (fun l => string_forall not_nl l = true) ls ->
  lines (unlines ls) = ls.
Proof.
  induction 1 as [|l ls Hl _ IH]; simpl; [reflexivity|].
  now rewrite (lines_app_nl _ _ Hl), IH.
Qed.

Lemma unlines_app (a b : list string) :
  unlines (a ++ b) = unlines a ++ unlines b.
Proof.
  induction a as [|l a IH]; simpl; [reflexivity|].
  now rewrite IH, app_assoc_str.
Qed.

(** Reading the fields of [name ++ spaces ++ value]. *)
Lemma name_field_app (n r : string) :
  string_forall not_space n = true ->
  name_field (n ++ String space r) = n.
Proof.
  induction n as [|c n IH]; simpl; [reflexivity|].
  intros H. apply andb_true_iff in H as [Hc Hn].
  unfold not_space in Hc. apply negb_true_iff in Hc. rewrite Hc.
  now rewrite (IH Hn).
Qed.

Lemma after_name_app (n r : string) :
  string_forall not_space n = true ->
  after_name (n ++ String space r) = String space r.
Proof.
  induction n as [|c n IH]; simpl; [reflexivity|].
  intros H. apply andb_true_iff in H as [Hc Hn].
  unfold not_space in Hc. apply negb_true_iff in Hc. rewrite Hc.
  exact (IH Hn).
Qed.

Lemma skip_spaces_value (k : nat) (v : string) :
  starts_with_non_space v = true ->
  skip_spaces (spaces k ++ v) = v.
Proof.
  intros Hv. induction k as [|k IH]; simpl; [|exact IH].
  destruct v as [|c v]; [discriminate|]. simpl in *.
  unfold not_space in Hv. apply negb_true_iff in Hv. now rewrite Hv.
Qed.

Lemma text_line_shape (n v : string) :
  text_line n v = n ++ String space (spaces (20 - String.length n) ++ v).
Proof.
  unfold text_line, field20. rewrite app_assoc_str. f_equal.
  generalize (20 - String.length n). intros k.
  induction k as [|k IH]; simpl; [reflexivity | now rewrite IH].
Qed.

Lemma name_field_text_line (n v : string) :
  string_forall not_space n = true ->
  name_field (text_line n v) = n.
Proof. intros H. rewrite text_line_shape. now apply name_field_app. Qed.

Lemma value_field_text_line (n v : string) :
  string_forall not_space n = true ->
  starts_with_non_space v = true ->
  value_field (text_line n v) = v.
Proof.
  intros Hn Hv. unfold value_field. rewrite text_line_shape.
  rewrite (after_name_app _ _ Hn).
  change (String space (spaces (20 - String.length n) ++ v))
    with (spaces (S (20 - String.length n)) ++ v).
  now apply skip_spaces_value.
Qed.

Lemma length_field20 (n : string) :
  String.length n <= 20 -> String.length (field20 n) = 20.
Proof.
  intros H. unfold field20. rewrite length_app_str, length_spaces. lia.
Qed.

Lemma value_column_text_line (n v : string) :
  string_forall not_space n = true ->
  starts_with_non_space v = true ->
  String.length n <= 20 ->
  value_column (text_line n v) = 22.
Proof.
  intros Hn Hv Hlen. unfold value_column.
  rewrite (value_field_text_line _ _ Hn Hv).
  unfold text_line. rewrite length_app_str, (length_field20 _ Hlen).
  cbn [String.length]. lia.
Qed.

End StringFacts.

(** ** Digits *)

Section DigitFacts.

Local Open Scope N_scope.

Lemma digit_char_lower_hex (d : N) :
  d < 16 -> Digits.is_lower_hex_digit (Digits.digit_char d) = true.
Proof. intros H. digit_cases d H; reflexivity. Qed.

Lemma digit_char_decimal (d : N) :
  d < 10 -> Digits.is_decimal_digit (Digits.digit_char d) = true.
Proof.
  intros H. assert (H16 : d < 16) by lia.
  digit_cases d H16; try reflexivity; lia.
Qed.

Lemma digit_val_digit_char (base d : N) :
  d < base -> base <= 16 ->
  Digits.digit_val base (Digits.digit_char d) = Some d.
Proof.
  intros Hd Hb. assert (H16 : d < 16) by lia.
  apply N.ltb_lt in Hd.
  digit_cases d H16; unfold Digits.digit_val; cbn; cbn in Hd; now rewrite Hd.
Qed.

Variable base : N.
Hypothesis base_lo : 2 <= base.

Lemma utoa_aux_forall (p : ascii -> bool) :
  (forall d, d < base -> p (Digits.digit_char d) = true) ->
  forall fuel n acc,
    string_forall p acc = true ->
    string_forall p (Digits.utoa_aux base fuel n acc) = true.
Proof.
  intros Hp. induction fuel as [|fuel IH]; intros n acc Hacc; simpl.
  - exact Hacc.
  - assert (Hd : p (Digits.digit_char (n mod base)) = true)
      by (apply Hp, N.mod_lt; lia).
    destruct (n / base =? 0).
    + simpl. now rewrite Hd.
    + apply IH. simpl. now rewrite Hd.
Qed.

Lemma utoa_aux_nonempty (fuel : nat) (n : N) (acc : string) :
  acc <> EmptyString -> Digits.utoa_aux base fuel n acc <> EmptyString.
Proof.
  revert n acc. induction fuel as [|fuel IH]; intros n acc Hacc; simpl.
  - exact Hacc.
  - destruct (n / base =? 0); [discriminate|].
    apply IH. discriminate.
Qed.

Lemma utoa_nonempty (n : N) : Digits.utoa base n <> EmptyString.
Proof.
  unfold Digits.utoa. simpl.
  destruct (n / base =? 0); [discriminate|].
  apply utoa_aux_nonempty. discriminate.
Qed.

Hypothesis base_hi : base <= 16.

Lemma atou_utoa_aux (fuel : nat) :
  forall n acc a,
    Digits.atou_aux base (Digits.utoa_aux base fuel n acc) a
    = Digits.atou_aux base acc (shifted base fuel n a).
Proof.
  induction fuel as [|fuel IH]; intros n acc a; simpl.
  - reflexivity.
  - assert (Hd : Digits.digit_val base (Digits.digit_char (n mod base))
                 = Some (n mod base))
      by (apply digit_val_digit_char; [apply N.mod_lt; lia | exact base_hi]).
    destruct (n / base =? 0).
    + simpl. now rewrite Hd.
    + rewrite IH. simpl. now rewrite Hd.
Qed.

Lemma shifted_zero (fuel : nat) :
  forall n, n < 2 ^ N.of_nat fuel -> shifted base fuel n 0 = n.
Proof.
  induction fuel as [|fuel IH]; intros n Hn.
  - simpl in Hn. simpl. lia.
  - cbn [shifted]. destruct (N.eqb_spec (n / base) 0) as [Hq|Hq].
    + assert (n < base).
      { apply N.div_small_iff in Hq; [exact Hq | lia]. }
      rewrite N.mod_small by assumption. lia.
    + rewrite IH.
      * rewrite N.mul_comm. symmetry. apply N.div_mod. lia.
      * rewrite Nat2N.inj_succ, N.pow_succ_r' in Hn.
        assert (n / base <= n / 2) by (apply N.div_le_compat_l; lia).
        assert (n / 2 < 2 ^ N.of_nat fuel)
          by (apply N.Div0.div_lt_upper_bound; lia).
        lia.
Qed.

Lemma atou_utoa (n : N) : Digits.atou base (Digits.utoa base n) = Some n.
Proof.
  unfold Digits.atou.
  destruct (Digits.utoa base n) eqn:E.
  - now apply utoa_nonempty in E.
  - rewrite <- E. unfold Digits.utoa. rewrite atou_utoa_aux.
    cbn [Digits.atou_aux]. f_equal. apply shifted_zero.
    rewrite Nat2N.inj_succ, N2Nat.id, N.pow_succ_r'.
    pose proof (N.size_gt n). lia.
Qed.

End DigitFacts.

(** ** printf and the macros *)

Section RunFacts.

Local Open Scope proc_scope.

Lemma sprintf_val (s : string) (t : ctype) (v : N) :
  Format.sprintf (c_literal "%-20s %lx\n") [ArgStr s; ArgUInt t v]
  = Some (text_line s (Digits.utoa 16 v) ++ String nl EmptyString).
Proof.
  unfold text_line. rewrite app_assoc_str. reflexivity.
Qed.

Lemma sprintf_size (s : string) (t : ctype) (v : N) :
  Format.sprintf (c_literal "%-20s %zu\n") [ArgStr s; ArgUInt t v]
  = Some (text_line s (Digits.utoa 10 v) ++ String nl EmptyString).
Proof.
  unfold text_line. rewrite app_assoc_str. reflexivity.
Qed.

Lemma printf_run (fmt : string) (args : list carg) (s : string) (w : world) :
  Format.sprintf fmt args = Some s ->
  printf fmt args w
  = match stdout_response w (List.length (calls w)) with
    | Fatal sg => Killed sg (log_call fmt args w)
    | _ => Returned (if stdout_writable w (List.length (calls w))
                     then Z.of_nat (String.length s) else (-1)%Z,
                     write1 (fmt, args) s w)
    end.
Proof.
  intros E. unfold printf, write1, stdout_writable. rewrite E. simpl.
  now destruct (stdout_response w (List.length (calls w))).
Qed.

Lemma printf_taken (fmt : string) (args : list carg) (s : string) (w : world) :
  Format.sprintf fmt args = Some s ->
  stdout_writable w (List.length (calls w)) = true ->
  printf fmt args w
  = Returned (Z.of_nat (String.length s), emit s (log_call fmt args w)).
Proof.
  intros E Hok. unfold printf. rewrite E. unfold stdout_writable in Hok.
  now destruct (stdout_response w (List.length (calls w))).
Qed.

Lemma bind_printf {B : Type} (fmt : string) (args : list carg) (s : string)
      (k : M B) (w : world) :
  Format.sprintf fmt args = Some s ->
  (printf fmt args ;; k) w
  = match stdout_response w (List.length (calls w)) with
    | Fatal sg => Killed sg (log_call fmt args w)
    | _ => k (write1 (fmt, args) s w)
    end.
Proof.
  intros E. unfold bind. rewrite (printf_run _ _ _ _ E).
  now destruct (stdout_response w (List.length (calls w))).
Qed.

Lemma bind_PRINT_VAL {B : Type} (hdr : header) (s : string) (k : M B) (w : world) :
  (PRINT_VAL hdr s ;; k) w
  = match stdout_response w (List.length (calls w)) with
    | Fatal sg =>
        Killed sg (log_call (fst (val_call hdr s)) (snd (val_call hdr s)) w)
    | _ => k (write1 (val_call hdr s)
                     (identifier_line hdr s ++ String nl EmptyString) w)
    end.
Proof.
  unfold PRINT_VAL. now rewrite (bind_printf _ _ _ _ _ (sprintf_val _ _ _)).
Qed.

Lemma bind_PRINT_SIZE {B : Type} (hdr : header) (s : string) (k : M B) (w : world) :
  (PRINT_SIZE hdr s ;; k) w
  = match stdout_response w (List.length (calls w)) with
    | Fatal sg =>
        Killed sg (log_call (fst (size_call hdr s)) (snd (size_call hdr s)) w)
    | _ => k (write1 (size_call hdr s)
                     (size_line hdr s ++ String nl EmptyString) w)
    end.
Proof.
  unfold PRINT_SIZE. now rewrite (bind_printf _ _ _ _ _ (sprintf_size _ _ _)).
Qed.

Lemma write_all_app cls1 cls2 (w : world) :
  write_all (cls1 ++ cls2)%list w = write_all cls2 (write_all cls1 w).
Proof.
  revert w. induction cls1 as [|[c l] cls1 IH]; intros w; simpl;
    [reflexivity | apply IH].
Qed.

Lemma stdout_writable_ext (w1 w2 : world) :
  stdout_response w1 = stdout_response w2 ->
  stdout_writable w1 = stdout_writable w2.
Proof. unfold stdout_writable. now intros ->. Qed.

Lemma write1_response c s (w : world) :
  stdout_response (write1 c s w) = stdout_response w.
Proof.
  unfold write1. now destruct (stdout_writable w (List.length (calls w))).
Qed.

(** What a run of writes leaves untouched, and what it changes. *)
Lemma write1_frame c s (w : world) :
  argv (write1 c s w) = argv w /\
  environ (write1 c s w) = environ w /\
  stdin (write1 c s w) = stdin w /\
  stdout_writable (write1 c s w) = stdout_writable w /\
  calls (write1 c s w) = (calls w ++ [c])%list.
Proof.
  pose proof (stdout_writable_ext _ _ (write1_response c s w)) as Ho.
  unfold write1 in *. destruct c as [fmt args].
  destruct (stdout_writable w (List.length (calls w))); simpl; auto.
Qed.


Lemma write_all_frame cls (w : world) :
  argv (write_all cls w) = argv w /\
  environ (write_all cls w) = environ w /\
  stdin (write_all cls w) = stdin w /\
  stdout_writable (write_all cls w) = stdout_writable w /\
  calls (write_all cls w) = (calls w ++ map fst cls)%list.
Proof.
  revert w. induction cls as [|[c l] cls IH]; intros w; simpl.
  - rewrite app_nil_r. auto.
  - destruct (IH (write1 c (l ++ String nl EmptyString) w))
      as (Ha & He & Hi & Ho & Hc).
    destruct (write1_frame c (l ++ String nl EmptyString) w)
      as (Ha' & He' & Hi' & Ho' & Hc').
    rewrite Ha, He, Hi, Ho, Hc, Ha', He', Hi', Ho', Hc', <- app_assoc.
    auto.
Qed.

Lemma log_call_frame fmt args (w : world) :
  argv (log_call fmt args w) = argv w /\
  environ (log_call fmt args w) = environ w /\
  stdin (log_call fmt args w) = stdin w /\
  stdout_writable (log_call fmt args w) = stdout_writable w /\
  stdout (log_call fmt args w) = stdout w.
Proof. repeat split. Qed.

Lemma write_all_stdout cls (w : world) :
  stdout (write_all cls w)
  = stdout w ++ unlines (accepted (stdout_writable w) (List.length (calls w))
                                  (map snd cls)).
Proof.
  revert w. induction cls as [|[c l] cls IH]; intros w; simpl.
  - now rewrite app_nil_r_str.
  - rewrite IH.
    destruct (write1_frame c (l ++ String nl EmptyString) w)
      as (_ & _ & _ & Ho & Hc).
    rewrite Ho, Hc, length_app, Nat.add_1_r. simpl.
    unfold write1.
    destruct (stdout_writable w (List.length (calls w))); simpl.
    + now rewrite !app_assoc_str.
    + reflexivity.
Qed.

Lemma accepted_all (ok : nat -> bool) (k : nat) (ls : list string) :
  (forall i, ok i = true) -> accepted ok k ls = ls.
Proof.
  intros H. revert k. induction ls as [|l ls IH]; intros k; simpl;
    [reflexivity | now rewrite H, IH].
Qed.

Lemma accepted_none (ok : nat -> bool) (k : nat) (ls : list string) :
  (forall i, ok i = false) -> accepted ok k ls = [].
Proof.
  intros H. revert k. induction ls as [|l ls IH]; intros k; simpl;
    [reflexivity | now rewrite H, IH].
Qed.

Lemma map_fst_combine {A B : Type} (l1 : list A) (l2 : list B) :
  List.length l1 = List.length l2 -> map fst (combine l1 l2) = l1.
Proof.
  revert l2. induction l1 as [|a l1 IH]; intros [|b l2]; simpl;
    try discriminate; [reflexivity|].
  intros [= H]. now rewrite IH.
Qed.

Lemma map_snd_combine {A B : Type} (l1 : list A) (l2 : list B) :
  List.length l1 = List.length l2 -> map snd (combine l1 l2) = l2.
Proof.
  revert l2. induction l1 as [|a l1 IH]; intros [|b l2]; simpl;
    try discriminate; [reflexivity|].
  intros [= H]. now rewrite IH.
Qed.

(** A sequence of macro statements is a run of writes. *)
Lemma sequence_sizes_run (hdr : header) (structs : list string) (status : Z)
      (w : world) :
  sequence (map (PRINT_SIZE hdr) structs) status w
  = run_writes (combine (map (size_call hdr) structs)
                        (map (size_line hdr) structs)) status w.
Proof.
  revert w. induction structs as [|s structs IH]; intros w.
  - reflexivity.
  - cbn [map sequence combine run_writes]. rewrite bind_PRINT_SIZE.
    destruct (stdout_response w (List.length (calls w)));
      [apply IH | apply IH | reflexivity].
Qed.

Lemma sequence_macros_run (hdr : header) (ids structs : list string)
      (status : Z) (w : world) :
  sequence (map (PRINT_VAL hdr) ids ++ map (PRINT_SIZE hdr) structs)%list
           status w
  = run_writes
      (combine (map (val_call hdr) ids ++ map (size_call hdr) structs)
               (map (identifier_line hdr) ids
                ++ map (size_line hdr) structs))%list status w.
Proof.
  revert w. induction ids as [|s ids IH]; intros w.
  - apply sequence_sizes_run.
  - cbn [map app sequence combine run_writes]. rewrite bind_PRINT_VAL.
    destruct (stdout_response w (List.length (calls w)));
      [apply IH | apply IH | reflexivity].
Qed.

(** The whole program, as one run of writes. *)
Lemma main_run (hdr : header) (w : world) :
  main hdr w
  = run_writes (combine (main_calls hdr) (expected_lines hdr)) 0%Z w.
Proof.
  exact (sequence_macros_run hdr identifier_names struct_names 0%Z w).
Qed.

(** A run of writes ends at the first write that raises a signal, with
    that call made and the earlier lines handled; without such a write it
    returns after the last one. *)
Lemma run_writes_spec cls (status : Z) :
  forall w,
    match first_fatal (stdout_response w) (List.length (calls w))
                      (List.length cls) with
    | None => run_writes cls status w = Returned (status, write_all cls w)
    | Some (i, sg) =>
        exists w',
          run_writes cls status w = Killed sg w' /\
          calls w' = (calls w ++ firstn (S i) (map fst cls))%list /\
          stdout w' = stdout (write_all (firstn i cls) w) /\
          argv w' = argv w /\
          environ w' = environ w /\
          stdin w' = stdin w /\
          stdout_writable w' = stdout_writable w
    end.
Proof.
  induction cls as [|[c l] cls IH]; intros w.
  - reflexivity.
  - cbn [List.length first_fatal run_writes].
    specialize (IH (write1 c (l ++ String nl EmptyString) w)).
    destruct (write1_frame c (l ++ String nl EmptyString) w)
      as (Ha & He & Hi & Ho & Hc).
    rewrite write1_response, Hc, length_app, Nat.add_1_r in IH.
    cbn [List.length] in IH.
    destruct (stdout_response w (List.length (calls w))) as [| |sg].
    + destruct (first_fatal (stdout_response w) (S (List.length (calls w)))
                            (List.length cls)) as [[i sg]|].
      * destruct IH as (w' & Hrun & Hc' & Hs' & Ha' & He' & Hi' & Ho').
        exists w'. rewrite Hc' , Hs', Ha', He', Hi', Ho', Ha, He, Hi, Ho.
        rewrite <- app_assoc. repeat split; auto.
      * exact IH.
    + destruct (first_fatal (stdout_response w) (S (List.length (calls w)))
                            (List.length cls)) as [[i sg]|].
      * destruct IH as (w' & Hrun & Hc' & Hs' & Ha' & He' & Hi' & Ho').
        exists w'. rewrite Hc' , Hs', Ha', He', Hi', Ho', Ha, He, Hi, Ho.
        rewrite <- app_assoc. repeat split; auto.
      * exact IH.
    + destruct c as [fmt args]. eexists. split; [reflexivity|]. repeat split.
Qed.

Lemma first_fatal_writable (w : world) (k n : nat) :
  (forall i, stdout_writable w i = true) ->
  first_fatal (stdout_response w) k n = None.
Proof.
  intros Hok. revert k. induction n as [|n IH]; intros k; simpl;
    [reflexivity|].
  specialize (Hok k). unfold stdout_writable in Hok.
  destruct (stdout_response w k); try discriminate. now rewrite IH.
Qed.

Lemma run_writes_taken cls (status : Z) (w : world) :
  (forall i, stdout_writable w i = true) ->
  run_writes cls status w = Returned (status, write_all cls w).
Proof.
  intros Hok. pose proof (run_writes_spec cls status w) as H.
  now rewrite (first_fatal_writable _ _ _ Hok) in H.
Qed.


End RunFacts.

(** ** The lines of the checklist *)

Section LineFacts.

Variable hdr : header.

Lemma two_le_ten : (2 <= 10)%N. Proof. lia. Qed.
Lemma two_le_sixteen : (2 <= 16)%N. Proof. lia. Qed.
Lemma ten_le_sixteen : (10 <= 16)%N. Proof. lia. Qed.

Lemma utoa16_lower_hex (v : N) :
  string_forall Digits.is_lower_hex_digit (Digits.utoa 16 v) = true.
Proof.
  apply (utoa_aux_forall 16 two_le_sixteen); [|reflexivity].
  intros d Hd. now apply digit_char_lower_hex.
Qed.

Lemma utoa10_decimal (v : N) :
  string_forall Digits.is_decimal_digit (Digits.utoa 10 v) = true.
Proof.
  apply (utoa_aux_forall 10 two_le_ten); [|reflexivity].
  intros d Hd. now apply digit_char_decimal.
Qed.

Lemma decimal_is_lower_hex (c : ascii) :
  Digits.is_decimal_digit c = true -> Digits.is_lower_hex_digit c = true.
Proof. intros H. unfold Digits.is_lower_hex_digit. now rewrite H. Qed.

Lemma lower_hex_not_space (c : ascii) :
  Digits.is_lower_hex_digit c = true -> not_space c = true.
Proof.
  intros H. unfold not_space. destruct (Ascii.eqb_spec c space) as [->|];
    [discriminate H | reflexivity].
Qed.

Lemma lower_hex_not_nl (c : ascii) :
  Digits.is_lower_hex_digit c = true -> not_nl c = true.
Proof.
  intros H. unfold not_nl. destruct (Ascii.eqb_spec c nl) as [->|];
    [discriminate H | reflexivity].
Qed.

Lemma lower_hex_not_x (s : string) :
  string_forall Digits.is_lower_hex_digit s = true -> prefix "0x" s = false.
Proof.
  destruct s as [|a s]; [reflexivity|]. cbn [prefix string_forall].
  intros H. apply andb_true_iff in H as [_ H].
  destruct (Ascii.ascii_dec "0" a); [|reflexivity].
  destruct s as [|b s]; [reflexivity|]. cbn [prefix string_forall] in *.
  apply andb_true_iff in H as [Hb _].
  destruct (Ascii.ascii_dec "x" b) as [<-|]; [discriminate Hb | reflexivity].
Qed.

Lemma digits_start (s : string) :
  s <> EmptyString ->
  string_forall Digits.is_lower_hex_digit s = true ->
  starts_with_non_space s = true.
Proof.
  destruct s as [|c s]; [congruence|]. simpl. intros _ H.
  apply andb_true_iff in H as [Hc _]. now apply lower_hex_not_space.
Qed.

Lemma utoa16_start (v : N) : starts_with_non_space (Digits.utoa 16 v) = true.
Proof.
  apply digits_start; [apply utoa_nonempty; lia | apply utoa16_lower_hex].
Qed.

Lemma utoa10_start (v : N) : starts_with_non_space (Digits.utoa 10 v) = true.
Proof.
  apply digits_start; [apply utoa_nonempty; lia|].
  apply (string_forall_impl _ _ _ decimal_is_lower_hex), utoa10_decimal.
Qed.

Lemma text_line_not_nl (n v : string) :
  string_forall not_nl n = true ->
  string_forall Digits.is_lower_hex_digit v = true ->
  string_forall not_nl (text_line n v) = true.
Proof.
  intros Hn Hv. unfold text_line, field20.
  rewrite !string_forall_app, Hn, string_forall_spaces. simpl.
  apply (string_forall_impl _ _ _ lower_hex_not_nl), Hv.
Qed.

Lemma identifier_line_not_nl (n : string) :
  string_forall not_nl n = true ->
  string_forall not_nl (identifier_line hdr n) = true.
Proof. intros H. apply text_line_not_nl; [exact H | apply utoa16_lower_hex]. Qed.

Lemma size_line_not_nl (n : string) :
  string_forall not_nl n = true ->
  string_forall not_nl (size_line hdr n) = true.
Proof.
  intros H. apply text_line_not_nl; [exact H|].
  apply (string_forall_impl _ _ _ decimal_is_lower_hex), utoa10_decimal.
Qed.

Lemma expected_lines_not_nl :
  Forall (fun l => string_forall not_nl l = true) (expected_lines hdr).
Proof.
  unfold expected_lines. apply Forall_app. split; apply Forall_map.
  - unfold identifier_names.
    repeat (constructor; [now apply identifier_line_not_nl|]). constructor.
  - unfold struct_names.
    repeat (constructor; [now apply size_line_not_nl|]). constructor.
Qed.

Lemma lines_expected : lines (unlines (expected_lines hdr)) = expected_lines hdr.
Proof. apply lines_unlines, expected_lines_not_nl. Qed.

Lemma name_field_identifier_line (n : string) :
  string_forall not_space n = true ->
  name_field (identifier_line hdr n) = n.
Proof. apply name_field_text_line. Qed.

Lemma name_field_size_line (n : string) :
  string_forall not_space n = true ->
  name_field (size_line hdr n) = n.
Proof. apply name_field_text_line. Qed.

Lemma name_fields_expected : map name_field (expected_lines hdr) = checklist.
Proof.
  unfold expected_lines, checklist, identifier_names, struct_names.
  cbn [map app].
  repeat rewrite name_field_identifier_line by reflexivity.
  repeat rewrite name_field_size_line by reflexivity.
  reflexivity.
Qed.

Lemma text_line_not_empty (n v : string) : text_line n v <> EmptyString.
Proof.
  intros H. apply (f_equal String.length) in H.
  unfold text_line in H. rewrite length_app_str in H. simpl in H. lia.
Qed.

Lemma expected_lines_not_empty :
  Forall (fun l => l <> EmptyString) (expected_lines hdr).
Proof.
  unfold expected_lines. apply Forall_app. split; apply Forall_map;
    apply Forall_forall; intros n _; apply text_line_not_empty.
Qed.

(** The output of a run on a stream that takes every write. *)
Lemma main_output (w : world) :
  (forall k, stdout_writable w k = true) ->
  exists w',
    main hdr w = Returned (0%Z, w') /\
    stdout w' = stdout w ++ unlines (expected_lines hdr).
Proof.
  intros Hok. eexists. split.
  - rewrite main_run. apply (run_writes_taken _ _ _ Hok).
  - rewrite write_all_stdout, (accepted_all _ _ _ Hok).
    reflexivity.
Qed.

End LineFacts.

(** ** Single lines against the format of the specification *)

Section LineShape.

Variable hdr : header.

Lemma prefix_app (a b : string) : prefix a (a ++ b) = true.
Proof.
  induction a as [|c a IH]; simpl; [now destruct b|].
  destruct (Ascii.ascii_dec c c); [exact IH | congruence].
Qed.

Lemma name_padded_text_line (n v : string) :
  string_forall not_space n = true -> name_padded n (text_line n v).
Proof.
  intros Hn. repeat split.
  - apply prefix_app.
  - unfold field20. rewrite length_app_str, length_spaces. lia.
  - now apply name_field_text_line.
Qed.

Lemma identifier_line_shape (n : string) :
  string_forall not_space n = true ->
  identifier_line_ok hdr n (identifier_line hdr n).
Proof.
  intros Hn. unfold identifier_line_ok, identifier_line.
  rewrite (value_field_text_line _ _ Hn (utoa16_start _)).
  split; [now apply name_padded_text_line|].
  split; [apply utoa16_lower_hex|].
  split; [apply lower_hex_not_x, utoa16_lower_hex|].
  apply atou_utoa; lia.
Qed.

Lemma size_line_shape (n : string) :
  string_forall not_space n = true ->
  size_line_ok hdr n (size_line hdr n).
Proof.
  intros Hn. unfold size_line_ok, size_line.
  rewrite (value_field_text_line _ _ Hn (utoa10_start _)).
  split; [now apply name_padded_text_line|].
  split; [apply utoa10_decimal|].
  apply atou_utoa; lia.
Qed.

Lemma aligned_text_line (n v : string) :
  string_forall not_space n = true ->
  starts_with_non_space v = true ->
  String.length n <= 20 ->
  aligned n (text_line n v).
Proof.
  intros Hn Hv Hlen. unfold aligned.
  rewrite (value_field_text_line _ _ Hn Hv).
  split; [reflexivity|].
  split; [now apply length_field20|].
  split; [exact Hv|].
  now apply value_column_text_line.
Qed.

Lemma identifier_lines_shape :
  Forall2 (identifier_line_ok hdr) identifier_names
          (map (identifier_line hdr) identifier_names).
Proof.
  unfold identifier_names. cbn [map].
  repeat (constructor; [now apply identifier_line_shape|]). constructor.
Qed.

Lemma size_lines_shape :
  Forall2 (size_line_ok hdr) struct_names (map (size_line hdr) struct_names).
Proof.
  unfold struct_names. cbn [map].
  repeat (constructor; [now apply size_line_shape|]). constructor.
Qed.

Lemma expected_lines_aligned : Forall2 aligned checklist (expected_lines hdr).
Proof.
  unfold checklist, expected_lines, identifier_names, struct_names.
  cbn [map app].
  repeat (constructor;
          [apply aligned_text_line;
           [reflexivity | first [apply utoa16_start | apply utoa10_start]
           | cbn; lia]|]).
  constructor.
Qed.

Lemma firstn_expected :
  firstn 9 (expected_lines hdr) = map (identifier_line hdr) identifier_names.
Proof. reflexivity. Qed.

Lemma skipn_expected :
  skipn 9 (expected_lines hdr) = map (size_line hdr) struct_names.
Proof. reflexivity. Qed.

End LineShape.

(** * Theorems *)

(** C1: on a stream that takes every write, a run appends to standard
    output exactly 19 lines: the 9 identifier lines in the order register,
    unregister, wake, copy, zero-page, move, write-protect, continue,
    poison, then the 10 size lines in the order message, API, range,
    register, copy, zero-page, write-protect, continue, poison, move; there
    is no other line and no blank line. *)
Theorem C1_nineteen_lines_in_order (hdr : header) (w : world) :
  (forall k, stdout_writable w k = true) ->
  exists w' out,
    main hdr w = Returned (0%Z, w') /\
    stdout w' = stdout w ++ out /\
    out = unlines (lines out) /\
    List.length (lines out) = 19 /\
    lines out = (map (identifier_line hdr) identifier_names
                 ++ map (size_line hdr) struct_names)%list /\
    map name_field (lines out)
    = ["UFFDIO_REGISTER"; "UFFDIO_UNREGISTER"; "UFFDIO_WAKE"; "UFFDIO_COPY";
       "UFFDIO_ZEROPAGE"; "UFFDIO_MOVE"; "UFFDIO_WRITEPROTECT";
       "UFFDIO_CONTINUE"; "UFFDIO_POISON";
       "uffd_msg"; "uffdio_api"; "uffdio_range"; "uffdio_register";
       "uffdio_copy"; "uffdio_zeropage"; "uffdio_writeprotect";
       "uffdio_continue"; "uffdio_poison"; "uffdio_move"] /\
    Forall (fun l => l <> EmptyString) (lines out).
Proof.
  intros Hok. destruct (main_output hdr w Hok) as (w' & Hrun & Hout).
  exists w', (unlines (expected_lines hdr)).
  rewrite lines_expected.
  split; [exact Hrun|]. split; [exact Hout|]. split; [reflexivity|].
  split; [reflexivity|]. split; [reflexivity|].
  split; [apply name_fields_expected | apply expected_lines_not_empty].
Qed.

Lemma C1_witness :
  (forall k, stdout_writable quiet_world k = true) /\
  exists w' out,
    main lp64_header quiet_world = Returned (0%Z, w') /\
    stdout w' = out /\
    List.length (lines out) = 19 /\
    map name_field (lines out) = checklist.
Proof.
  split; [intros k; reflexivity|].
  destruct (C1_nineteen_lines_in_order lp64_header quiet_world
              (fun _ => eq_refl)) as (w' & out & Hrun & Hout & _ & Hlen & _ & Hn & _).
  exists w', out. repeat split; assumption.
Defined.

(** C2: every line starts with the item's name, left-aligned and padded
    to at least 20 columns, followed by the value field; on the 9
    identifier lines the value is hexadecimal with lower-case digits and
    no leading 0x, and reads back as the identifier's value; on the 10
    size lines it is the decimal size in bytes and reads back as such. *)
Theorem C2_line_format (hdr : header) (w : world) :
  (forall k, stdout_writable w k = true) ->
  exists w' out,
    main hdr w = Returned (0%Z, w') /\
    stdout w' = stdout w ++ out /\
    Forall2 (identifier_line_ok hdr) identifier_names (firstn 9 (lines out)) /\
    Forall2 (size_line_ok hdr) struct_names (skipn 9 (lines out)).
Proof.
  intros Hok. destruct (main_output hdr w Hok) as (w' & Hrun & Hout).
  exists w', (unlines (expected_lines hdr)).
  rewrite lines_expected, firstn_expected, skipn_expected.
  split; [exact Hrun|]. split; [exact Hout|].
  split; [apply identifier_lines_shape | apply size_lines_shape].
Qed.

Lemma C2_witness :
  (forall k, stdout_writable quiet_world k = true) /\
  exists w' out,
    main lp64_header quiet_world = Returned (0%Z, w') /\
    stdout w' = out /\
    Forall2 (identifier_line_ok lp64_header) identifier_names
            (firstn 9 (lines out)) /\
    Forall2 (size_line_ok lp64_header) struct_names (skipn 9 (lines out)).
Proof.
  split; [intros k; reflexivity|].
  destruct (C2_line_format lp64_header quiet_world (fun _ => eq_refl))
    as (w' & out & Hrun & Hout & Hid & Hsz).
  exists w', out. repeat split; assumption.
Defined.



(** On a stream that reports an error at every request the status is 0
    all the same, after 19 calls. *)
Example main_on_broken_stream :
  run lp64_header broken_world = Some (Exited 0%Z) /\
  exists w',
    main lp64_header broken_world = Returned (0%Z, w') /\
    stdout w' = EmptyString /\
    List.length (calls w') = 19.
Proof.
  split; [vm_compute; reflexivity|].
  eexists. split; [vm_compute; reflexivity|]. split; reflexivity.
Qed.

(** printf itself reports the refusal; [main] drops that result. *)
Lemma printf_reports_failure (fmt : string) (args : list carg) (w : world)
      (r : Z) (w' : world) :
  stdout_response w (List.length (calls w)) = Refused ->
  printf fmt args w = Returned (r, w') ->
  r = (-1)%Z /\ stdout w' = stdout w.
Proof.
  intros Hno. unfold printf. destruct (Format.sprintf fmt args); [|discriminate].
  rewrite Hno. intros [= <- <-]. split; reflexivity.
Qed.

(** C4: two runs of one build on streams that take every write append
    the same bytes to standard output and end with the same status,
    whatever the arguments, environment and standard input of either. *)
Theorem C4_deterministic_output (hdr : header) (w1 w2 : world) :
  (forall k, stdout_writable w1 k = true) ->
  (forall k, stdout_writable w2 k = true) ->
  exists out w1' w2',
    main hdr w1 = Returned (0%Z, w1') /\
    main hdr w2 = Returned (0%Z, w2') /\
    stdout w1' = stdout w1 ++ out /\
    stdout w2' = stdout w2 ++ out.
Proof.
  intros H1 H2.
  destruct (main_output hdr w1 H1) as (w1' & Hrun1 & Hout1).
  destruct (main_output hdr w2 H2) as (w2' & Hrun2 & Hout2).
  exists (unlines (expected_lines hdr)), w1', w2'. auto.
Qed.

Lemma C4_witness :
  (forall k, stdout_writable quiet_world k = true) /\
  (forall k, stdout_writable busy_world k = true) /\
  exists out w1' w2',
    main lp64_header quiet_world = Returned (0%Z, w1') /\
    main lp64_header busy_world = Returned (0%Z, w2') /\
    stdout w1' = out /\
    stdout w2' = out.
Proof.
  split; [intros k; reflexivity|]. split; [intros k; reflexivity|].
  destruct (C4_deterministic_output lp64_header quiet_world busy_world
              (fun _ => eq_refl) (fun _ => eq_refl))
    as (out & w1' & w2' & Hr1 & Hr2 & Ho1 & Ho2).
  exists out, w1', w2'. repeat split; assumption.
Defined.

(** C5: a run, whether [main] returns or the process is killed at a
    write, leaves the arguments, the environment, standard input and the
    stream's behaviour as they were, and what it does (how it ends, text
    on standard output, calls made) is the same whatever the arguments,
    the environment and standard input are. *)
Theorem C5_no_input_no_other_effect (hdr : header) :
  (forall w, exists w',
      (main hdr w = Returned (0%Z, w') \/
       exists sg, main hdr w = Killed sg w') /\
      argv w' = argv w /\
      environ w' = environ w /\
      stdin w' = stdin w /\
      stdout_writable w' = stdout_writable w) /\
  (forall a e i a' e' i' out ok cs,
      observe (main hdr (mkWorld a e i out ok cs))
      = observe (main hdr (mkWorld a' e' i' out ok cs))).
Proof.
  split.
  - intros w.
    pose proof (run_writes_spec (combine (main_calls hdr) (expected_lines hdr))
                                0%Z w) as H.
    rewrite <- main_run in H.
    destruct (first_fatal (stdout_response w) (List.length (calls w))
                          (List.length (combine (main_calls hdr)
                                                (expected_lines hdr))))
      as [[k sg]|].
    + destruct H as (w' & Hrun & _ & _ & Ha & He & Hi & Ho).
      exists w'. split; [right; now exists sg | auto].
    + eexists. split; [left; exact H|].
      destruct (write_all_frame
                  (combine (main_calls hdr) (expected_lines hdr)) w)
        as (Ha & He & Hi & Ho & _).
      auto.
  - intros a e i a' e' i' out ok cs.
    pose proof (run_writes_spec (combine (main_calls hdr) (expected_lines hdr))
                                0%Z (mkWorld a e i out ok cs)) as H1.
    pose proof (run_writes_spec (combine (main_calls hdr) (expected_lines hdr))
                                0%Z (mkWorld a' e' i' out ok cs)) as H2.
    rewrite <- main_run in H1, H2. cbn [stdout_response calls] in H1, H2.
    destruct (first_fatal ok (List.length cs)
                          (List.length (combine (main_calls hdr)
                                                (expected_lines hdr))))
      as [[k sg]|].
    + destruct H1 as (w1 & -> & Hc1 & Hs1 & _).
      destruct H2 as (w2 & -> & Hc2 & Hs2 & _).
      cbn [observe]. rewrite Hc1, Hc2, Hs1, Hs2, !write_all_stdout.
      reflexivity.
    + rewrite H1, H2. cbn [observe]. rewrite !write_all_stdout.
      destruct (write_all_frame (combine (main_calls hdr) (expected_lines hdr))
                  (mkWorld a e i out ok cs)) as (_ & _ & _ & _ & ->).
      destruct (write_all_frame (combine (main_calls hdr) (expected_lines hdr))
                  (mkWorld a' e' i' out ok cs)) as (_ & _ & _ & _ & ->).
      reflexivity.
Qed.

(** C6: across the 19 lines of a run every name of the checklist is the
    name field of exactly one line, and no name field is repeated. *)
Theorem C6_each_name_once (hdr : header) (w : world) :
  (forall k, stdout_writable w k = true) ->
  exists w' out,
    main hdr w = Returned (0%Z, w') /\
    stdout w' = stdout w ++ out /\
    List.length (lines out) = 19 /\
    map name_field (lines out) = checklist /\
    NoDup (map name_field (lines out)) /\
    forall n, In n checklist ->
              count_occ string_dec (map name_field (lines out)) n = 1.
Proof.
  intros Hok. destruct (main_output hdr w Hok) as (w' & Hrun & Hout).
  exists w', (unlines (expected_lines hdr)).
  rewrite lines_expected, name_fields_expected.
  assert (Hcount : forall n, In n checklist ->
                             count_occ string_dec checklist n = 1).
  { intros n Hin. unfold checklist, identifier_names, struct_names in Hin.
    cbn [app In] in Hin.
    repeat (destruct Hin as [<-|Hin]; [vm_compute; reflexivity|]).
    contradiction. }
  split; [exact Hrun|]. split; [exact Hout|]. split; [reflexivity|].
  split; [reflexivity|].
  split; [|exact Hcount].
  apply (NoDup_count_occ' string_dec). exact Hcount.
Qed.

Lemma C6_witness :
  (forall k, stdout_writable quiet_world k = true) /\
  exists w' out,
    main lp64_header quiet_world = Returned (0%Z, w') /\
    stdout w' = out /\
    NoDup (map name_field (lines out)).
Proof.
  split; [intros k; reflexivity|].
  destruct (C6_each_name_once lp64_header quiet_world (fun _ => eq_refl))
    as (w' & out & Hrun & Hout & _ & _ & Hnd & _).
  exists w', out. repeat split; assumption.
Defined.



(** C8: every line of a run is its name in a field of exactly 20 columns,
    then exactly one space, then the value; every name of the checklist
    has at most 19 characters, and the value starts in column 22 on all 19
    lines. *)
Theorem C8_value_column (hdr : header) (w : world) :
  (forall k, stdout_writable w k = true) ->
  exists w' out,
    main hdr w = Returned (0%Z, w') /\
    stdout w' = stdout w ++ out /\
    List.length (lines out) = 19 /\
    Forall2 aligned checklist (lines out) /\
    Forall (fun n => String.length n <= 19) checklist.
Proof.
  intros Hok. destruct (main_output hdr w Hok) as (w' & Hrun & Hout).
  exists w', (unlines (expected_lines hdr)).
  rewrite lines_expected.
  split; [exact Hrun|]. split; [exact Hout|]. split; [reflexivity|].
  split; [apply expected_lines_aligned|].
  unfold checklist, identifier_names, struct_names. cbn [app].
  repeat (constructor; [cbn; lia|]). constructor.
Qed.

Lemma C8_witness :
  (forall k, stdout_writable quiet_world k = true) /\
  exists w' out,
    main lp64_header quiet_world = Returned (0%Z, w') /\
    stdout w' = out /\
    Forall2 aligned checklist (lines out).
Proof.
  split; [intros k; reflexivity|].
  destruct (C8_value_column lp64_header quiet_world (fun _ => eq_refl))
    as (w' & out & Hrun & Hout & _ & Hal & _).
  exists w', out. repeat split; assumption.
Defined.

(** C9: the name fields of the 9 identifier lines are the constant names
    as written, in upper case; those of the 10 size lines are the bare
    struct tags as written, in lower case and without the word struct. *)
Theorem C9_name_fields (hdr : header) (w : world) :
  (forall k, stdout_writable w k = true) ->
  exists w' out,
    main hdr w = Returned (0%Z, w') /\
    stdout w' = stdout w ++ out /\
    map name_field (firstn 9 (lines out)) = identifier_names /\
    map name_field (skipn 9 (lines out)) = struct_names /\
    Forall (fun n => string_forall is_upper_or_underscore n = true)
           identifier_names /\
    Forall (fun n => string_forall is_lower_or_underscore n = true /\
                     prefix "struct" n = false)
           struct_names.
Proof.
  intros Hok. destruct (main_output hdr w Hok) as (w' & Hrun & Hout).
  exists w', (unlines (expected_lines hdr)).
  rewrite lines_expected.
  split; [exact Hrun|]. split; [exact Hout|].
  rewrite <- firstn_map, <- skipn_map, name_fields_expected.
  split; [reflexivity|]. split; [reflexivity|].
  split.
  - unfold identifier_names. repeat (constructor; [reflexivity|]). constructor.
  - unfold struct_names.
    repeat (constructor; [split; reflexivity|]). constructor.
Qed.

Lemma C9_witness :
  (forall k, stdout_writable quiet_world k = true) /\
  exists w' out,
    main lp64_header quiet_world = Returned (0%Z, w') /\
    stdout w' = out /\
    map name_field (firstn 9 (lines out)) = identifier_names /\
    map name_field (skipn 9 (lines out)) = struct_names.
Proof.
  split; [intros k; reflexivity|].
  destruct (C9_name_fields lp64_header quiet_world (fun _ => eq_refl))
    as (w' & out & Hrun & Hout & Hid & Hst & _).
  exists w', out. repeat split; assumption.
Defined.

(** ** Conversions and argument types *)

Section TypeFacts.

Variable hdr : header.

Lemma ctype_eqb_eq (a b : ctype) : ctype_eqb a b = true <-> a = b.
Proof. destruct a, b; simpl; split; congruence. Qed.

Lemma parse_val_format :
  Format.parse_format (c_literal "%-20s %lx\n")
  = Some [Dir (mkDirective true 20 LenNone ConvS); Lit space;
          Dir (mkDirective false 0 LenL ConvX); Lit nl].
Proof. vm_compute. reflexivity. Qed.

Lemma parse_size_format :
  Format.parse_format (c_literal "%-20s %zu\n")
  = Some [Dir (mkDirective true 20 LenNone ConvS); Lit space;
          Dir (mkDirective false 0 LenZ ConvU); Lit nl].
Proof. vm_compute. reflexivity. Qed.

Lemma val_call_conforms (st : ctype) (n : string) :
  Typing.call_conforms st (val_call hdr n)
  = ctype_eqb TULong (promote (macro_ctype hdr n)).
Proof.
  unfold Typing.call_conforms, val_call. cbn [fst snd].
  rewrite parse_val_format.
  cbn [Typing.args_conform]. unfold Typing.arg_conforms, Typing.expected_type.
  cbn [conv lenmod carg_type promote ctype_eqb andb].
  now rewrite andb_true_r.
Qed.

Lemma size_call_conforms (n : string) :
  Typing.call_conforms (size_t hdr) (size_call hdr n)
  = ctype_eqb (size_t hdr) (promote (size_t hdr)).
Proof.
  unfold Typing.call_conforms, size_call. cbn [fst snd].
  rewrite parse_size_format.
  cbn [Typing.args_conform]. unfold Typing.arg_conforms, Typing.expected_type.
  cbn [conv lenmod carg_type promote ctype_eqb andb].
  now rewrite andb_true_r.
Qed.

Lemma val_expected_types (st : ctype) (n : string) :
  Typing.expected_types st (fst (val_call hdr n)) = Some [TCharPtr; TULong].
Proof.
  unfold Typing.expected_types, val_call. cbn [fst].
  rewrite parse_val_format. reflexivity.
Qed.

Lemma size_expected_types (st : ctype) (n : string) :
  Typing.expected_types st (fst (size_call hdr n)) = Some [TCharPtr; st].
Proof.
  unfold Typing.expected_types, size_call. cbn [fst].
  rewrite parse_size_format. reflexivity.
Qed.

End TypeFacts.

(** C10: on a build whose headers give the identifiers the type
    [unsigned int], [PRINT_VAL] passes the constant as it is to [%lx],
    which requires [unsigned long]: none of the nine identifier calls
    conforms, while the ten [PRINT_SIZE] calls, which pair [%zu] with the
    [size_t] of [sizeof], all do. *)
Theorem C10_unsigned_int_meets_lx :
  exists w',
    main ilp32_header quiet_world = Returned (0%Z, w') /\
    nth_error (calls w') 0 = Some (val_call ilp32_header "UFFDIO_REGISTER") /\
    Typing.expected_types (size_t ilp32_header)
                          (fst (val_call ilp32_header "UFFDIO_REGISTER"))
    = Some [TCharPtr; TULong] /\
    map (fun a => promote (carg_type a))
        (snd (val_call ilp32_header "UFFDIO_REGISTER"))
    = [TCharPtr; TUInt] /\
    map (Typing.call_conforms (size_t ilp32_header)) (calls w')
    = (repeat false 9 ++ repeat true 10)%list.
Proof.
  eexists. split; [vm_compute; reflexivity|].
  repeat split; reflexivity.
Qed.

(** Whatever the build, an identifier call conforms exactly when the
    headers give the constant a type that promotes to [unsigned long]. *)
Lemma PRINT_VAL_conforms_iff (hdr : header) (n : string) :
  Typing.call_conforms (size_t hdr) (val_call hdr n) = true <->
  promote (macro_ctype hdr n) = TULong.
Proof.
  rewrite val_call_conforms, ctype_eqb_eq. split; congruence.
Qed.

(** On a build where [size_t] and the identifiers are [unsigned long],
    every call conforms. *)
Example lp64_calls_conform :
  forallb (Typing.call_conforms (size_t lp64_header)) (main_calls lp64_header)
  = true.
Proof. reflexivity. Qed.

(** ** A sample run *)

(** The text of a run of the sample build, line by line. *)
Example sample_run :
  match main lp64_header quiet_world with
  | Returned (status, w) => Some (status, lines (stdout w))
  | _ => None
  end
  = Some (0%Z,
          ["UFFDIO_REGISTER      c020aa00";
           "UFFDIO_UNREGISTER    8010aa01";
           "UFFDIO_WAKE          8010aa02";
           "UFFDIO_COPY          c028aa03";
           "UFFDIO_ZEROPAGE      c020aa04";
           "UFFDIO_MOVE          c028aa05";
           "UFFDIO_WRITEPROTECT  c018aa06";
           "UFFDIO_CONTINUE      c020aa07";
           "UFFDIO_POISON        c020aa08";
           "uffd_msg             32";
           "uffdio_api           24";
           "uffdio_range         16";
           "uffdio_register      32";
           "uffdio_copy          40";
           "uffdio_zeropage      32";
           "uffdio_writeprotect  24";
           "uffdio_continue      32";
           "uffdio_poison        32";
           "uffdio_move          40"]).
Proof. vm_compute. reflexivity. Qed.

(** Arguments, environment and standard input make no difference. *)
Example sample_run_with_arguments :
  observe (main lp64_header busy_world) = observe (main lp64_header quiet_world).
Proof. vm_compute. reflexivity. Qed.

(** * Further properties of the macros *)

(** ** Helper facts *)

Section MacroFacts.

Variable hdr : header.

Lemma is_token_split (s : string) :
  is_token s = true ->
  string_forall not_space s = true /\ string_forall not_nl s = true.
Proof. unfold is_token. intros H. now apply andb_true_iff in H. Qed.

Lemma PRINT_VAL_prints (s : string) (w : world) :
  stdout_writable w (List.length (calls w)) = true ->
  prints_line (PRINT_VAL hdr s) w (identifier_line hdr s).
Proof.
  intros Hok. unfold prints_line, PRINT_VAL.
  rewrite (printf_taken _ _ _ _ (sprintf_val _ _ _) Hok).
  eexists _, _. split; reflexivity.
Qed.

Lemma PRINT_SIZE_prints (s : string) (w : world) :
  stdout_writable w (List.length (calls w)) = true ->
  prints_line (PRINT_SIZE hdr s) w (size_line hdr s).
Proof.
  intros Hok. unfold prints_line, PRINT_SIZE.
  rewrite (printf_taken _ _ _ _ (sprintf_size _ _ _) Hok).
  eexists _, _. split; reflexivity.
Qed.

Lemma single_line (l : string) :
  string_forall not_nl l = true -> lines (l ++ String nl EmptyString) = [l].
Proof. intros H. now rewrite (lines_app_nl _ _ H). Qed.

Lemma length_field20_max (n : string) :
  String.length (field20 n) = Nat.max 20 (String.length n).
Proof. unfold field20. rewrite length_app_str, length_spaces. lia. Qed.

Lemma value_column_text_line_max (n v : string) :
  string_forall not_space n = true ->
  starts_with_non_space v = true ->
  value_column (text_line n v) = Nat.max 20 (String.length n) + 2.
Proof.
  intros Hn Hv. unfold value_column.
  rewrite (value_field_text_line _ _ Hn Hv).
  unfold text_line. rewrite length_app_str, length_field20_max.
  cbn [String.length]. lia.
Qed.

Lemma prefix_text_line (n v : string) : prefix n (text_line n v) = true.
Proof.
  unfold text_line, field20. rewrite app_assoc_str. apply prefix_app.
Qed.

Lemma some_inj {A : Type} (a b : A) : Some a = Some b -> a = b.
Proof. now intros [= ->]. Qed.

Lemma app_inv_head_str (a b c : string) : a ++ b = a ++ c -> b = c.
Proof.
  induction a as [|x a IH]; simpl; [auto|]. intros [= H]. now apply IH.
Qed.

End MacroFacts.

Section DigitCount.

Local Open Scope N_scope.

Variable base : N.
Hypothesis base_lo : 2 <= base.
Hypothesis base_hi : base <= 16.

Lemma utoa_inj (a b : N) : Digits.utoa base a = Digits.utoa base b -> a = b.
Proof.
  intros H. apply (f_equal (Digits.atou base)) in H.
  rewrite !(atou_utoa base base_lo base_hi) in H. now injection H.
Qed.

Lemma digit_char_nonzero (d : N) :
  0 < d -> d < 16 -> Digits.digit_char d <> "0"%char.
Proof.
  intros H0 H16. digit_cases d H16; try discriminate; lia.
Qed.

(** The first digit of a positive number is not zero. *)
Lemma utoa_aux_head (fuel : nat) :
  forall n acc,
    0 < n -> n < 2 ^ N.of_nat fuel ->
    exists c r, Digits.utoa_aux base fuel n acc = String c r /\ c <> "0"%char.
Proof.
  induction fuel as [|fuel IH]; intros n acc Hpos Hn.
  - simpl in Hn. lia.
  - cbn [Digits.utoa_aux]. destruct (N.eqb_spec (n / base) 0) as [Hq|Hq].
    + assert (Hsmall : n < base)
        by (apply N.div_small_iff in Hq; [exact Hq | lia]).
      rewrite N.mod_small by assumption.
      eexists _, _. split; [reflexivity|].
      apply digit_char_nonzero; lia.
    + apply IH; [now apply N.neq_0_lt_0|].
      rewrite Nat2N.inj_succ, N.pow_succ_r' in Hn.
      assert (n / base <= n / 2) by (apply N.div_le_compat_l; lia).
      assert (n / 2 < 2 ^ N.of_nat fuel)
        by (apply N.Div0.div_lt_upper_bound; lia).
      lia.
Qed.

Lemma utoa_head (n : N) :
  0 < n -> exists c r, Digits.utoa base n = String c r /\ c <> "0"%char.
Proof.
  intros Hpos. apply utoa_aux_head; [exact Hpos|].
  rewrite Nat2N.inj_succ, N2Nat.id, N.pow_succ_r'.
  pose proof (N.size_gt n). lia.
Qed.

Lemma utoa_zero : Digits.utoa base 0 = "0"%string.
Proof.
  unfold Digits.utoa. cbn [N.size N.to_nat Digits.utoa_aux].
  rewrite N.Div0.mod_0_l, N.Div0.div_0_l. reflexivity.
Qed.

(** A number below [base ^ k] has at most [k] digits. *)
Lemma utoa_aux_length (fuel : nat) :
  forall n acc k,
    (1 <= k)%nat -> n < base ^ N.of_nat k ->
    (String.length (Digits.utoa_aux base fuel n acc)
     <= k + String.length acc)%nat.
Proof.
  induction fuel as [|fuel IH]; intros n acc k Hk Hn; cbn [Digits.utoa_aux].
  - lia.
  - destruct (N.eqb_spec (n / base) 0) as [Hq|Hq].
    + cbn [String.length]. lia.
    + destruct k as [|[|k]]; [lia| |].
      * exfalso. apply Hq. apply N.div_small.
        change (N.of_nat 1) with 1 in Hn. now rewrite N.pow_1_r in Hn.
      * specialize (IH (n / base)
                       (String (Digits.digit_char (n mod base)) acc) (S k)).
        cbn [String.length] in IH.
        assert (n / base < base ^ N.of_nat (S k)).
        { apply N.Div0.div_lt_upper_bound.
          rewrite <- N.pow_succ_r', <- Nat2N.inj_succ. exact Hn. }
        assert ((1 <= S k)%nat) by lia.
        specialize (IH ltac:(assumption) ltac:(assumption)). lia.
Qed.

Lemma utoa_length (n : N) (k : nat) :
  (1 <= k)%nat -> n < base ^ N.of_nat k ->
  (String.length (Digits.utoa base n) <= k)%nat.
Proof.
  intros Hk Hn. unfold Digits.utoa.
  pose proof (utoa_aux_length (S (N.to_nat (N.size n))) n EmptyString k Hk Hn)
    as H.
  cbn [String.length] in H. lia.
Qed.

End DigitCount.

Section ComposeFacts.

Variable hdr : header.

Lemma macro_lines_not_nl (ids structs : list string) :
  Forall (fun s => is_token s = true) (ids ++ structs)%list ->
  Forall (fun l => string_forall not_nl l = true)
         (map (identifier_line hdr) ids ++ map (size_line hdr) structs)%list.
Proof.
  intros H. apply Forall_app in H as [Hi Hs].
  apply Forall_app. split; apply Forall_map.
  - eapply Forall_impl; [|exact Hi]. intros s Hs'.
    now apply identifier_line_not_nl, is_token_split.
  - eapply Forall_impl; [|exact Hs]. intros s Hs'.
    now apply size_line_not_nl, is_token_split.
Qed.

Lemma macro_lines_names (ids structs : list string) :
  Forall (fun s => is_token s = true) (ids ++ structs)%list ->
  map name_field
      (map (identifier_line hdr) ids ++ map (size_line hdr) structs)%list
  = (ids ++ structs)%list.
Proof.
  intros H. apply Forall_app in H as [Hi Hs].
  rewrite map_app, !map_map. f_equal.
  - rewrite <- (map_id ids) at 2. apply map_ext_in. intros s Hin.
    apply name_field_identifier_line.
    rewrite Forall_forall in Hi. now apply is_token_split, Hi.
  - rewrite <- (map_id structs) at 2. apply map_ext_in. intros s Hin.
    apply name_field_size_line.
    rewrite Forall_forall in Hs. now apply is_token_split, Hs.
Qed.

End ComposeFacts.

(** ** Properties *)

(** X1: for any identifier token, [PRINT_VAL] on a stream that takes the
    write prints exactly one line; the line's name field is the token as
    written and its value field, in lower-case hexadecimal, reads back as
    the value the headers give the identifier. *)
Theorem PRINT_VAL_round_trip (hdr : header) (s : string) (w : world) :
  is_token s = true ->
  stdout_writable w (List.length (calls w)) = true ->
  exists l,
    prints_line (PRINT_VAL hdr s) w l /\
    lines (l ++ String nl EmptyString) = [l] /\
    name_field l = s /\
    string_forall Digits.is_lower_hex_digit (value_field l) = true /\
    Digits.atou 16 (value_field l) = Some (macro_value hdr s).
Proof.
  intros Htok Hok. apply is_token_split in Htok as [Hsp Hnl].
  exists (identifier_line hdr s).
  destruct (identifier_line_shape hdr s Hsp) as ((_ & _ & Hn) & Hhex & _ & Hv).
  split; [now apply PRINT_VAL_prints|].
  split; [now apply single_line, identifier_line_not_nl|]. auto.
Qed.

Lemma PRINT_VAL_round_trip_witness :
  is_token "UFFDIO_WAKE" = true /\
  stdout_writable quiet_world (List.length (calls quiet_world)) = true /\
  exists l,
    prints_line (PRINT_VAL lp64_header "UFFDIO_WAKE") quiet_world l /\
    lines (l ++ String nl EmptyString) = [l] /\
    name_field l = "UFFDIO_WAKE" /\
    string_forall Digits.is_lower_hex_digit (value_field l) = true /\
    Digits.atou 16 (value_field l) = Some (macro_value lp64_header "UFFDIO_WAKE").
Proof.
  split; [reflexivity|]. split; [reflexivity|].
  apply (PRINT_VAL_round_trip lp64_header "UFFDIO_WAKE" quiet_world);
    reflexivity.
Defined.

(** X2: for any struct tag, [PRINT_SIZE] on a stream that takes the write
    prints exactly one line; the line's name field is the tag as written
    and its value field, in decimal, reads back as the size of that
    struct. *)
Theorem PRINT_SIZE_round_trip (hdr : header) (s : string) (w : world) :
  is_token s = true ->
  stdout_writable w (List.length (calls w)) = true ->
  exists l,
    prints_line (PRINT_SIZE hdr s) w l /\
    lines (l ++ String nl EmptyString) = [l] /\
    name_field l = s /\
    string_forall Digits.is_decimal_digit (value_field l) = true /\
    Digits.atou 10 (value_field l) = Some (sizeof_struct hdr s).
Proof.
  intros Htok Hok. apply is_token_split in Htok as [Hsp Hnl].
  exists (size_line hdr s).
  destruct (size_line_shape hdr s Hsp) as ((_ & _ & Hn) & Hdec & Hv).
  split; [now apply PRINT_SIZE_prints|].
  split; [now apply single_line, size_line_not_nl|]. auto.
Qed.

Lemma PRINT_SIZE_round_trip_witness :
  is_token "uffdio_copy" = true /\
  stdout_writable quiet_world (List.length (calls quiet_world)) = true /\
  exists l,
    prints_line (PRINT_SIZE lp64_header "uffdio_copy") quiet_world l /\
    lines (l ++ String nl EmptyString) = [l] /\
    name_field l = "uffdio_copy" /\
    string_forall Digits.is_decimal_digit (value_field l) = true /\
    Digits.atou 10 (value_field l) = Some (sizeof_struct lp64_header "uffdio_copy").
Proof.
  split; [reflexivity|]. split; [reflexivity|].
  apply (PRINT_SIZE_round_trip lp64_header "uffdio_copy" quiet_world);
    reflexivity.
Defined.

(** X3: the field width of 20 is a minimum: a name of any length is
    printed whole, and the value starts two columns after the wider of
    the name and the 20-column field: in column 22 for a name of at most
    20 characters, to the right of column 22 for a longer one. *)
Theorem wide_name_shifts_value (hdr : header) (s : string) (w : world) :
  is_token s = true ->
  stdout_writable w (List.length (calls w)) = true ->
  exists lv ls,
    prints_line (PRINT_VAL hdr s) w lv /\
    prints_line (PRINT_SIZE hdr s) w ls /\
    prefix s lv = true /\ prefix s ls = true /\
    value_column lv = Nat.max 20 (String.length s) + 2 /\
    value_column ls = Nat.max 20 (String.length s) + 2 /\
    (String.length s <= 20 -> value_column lv = 22 /\ value_column ls = 22) /\
    (20 < String.length s -> 22 < value_column lv /\ 22 < value_column ls).
Proof.
  intros Htok Hok. apply is_token_split in Htok as [Hsp _].
  exists (identifier_line hdr s), (size_line hdr s).
  assert (Hv : value_column (identifier_line hdr s)
               = Nat.max 20 (String.length s) + 2)
    by (apply value_column_text_line_max; auto using utoa16_start).
  assert (Hs : value_column (size_line hdr s)
               = Nat.max 20 (String.length s) + 2)
    by (apply value_column_text_line_max; auto using utoa10_start).
  split; [now apply PRINT_VAL_prints|].
  split; [now apply PRINT_SIZE_prints|].
  split; [apply prefix_text_line|]. split; [apply prefix_text_line|].
  split; [exact Hv|]. split; [exact Hs|].
  split; intros Hlen; lia.
Qed.

Lemma wide_name_shifts_value_witness :
  is_token "UFFDIO_WRITEPROTECT_ASYNC" = true /\
  stdout_writable quiet_world (List.length (calls quiet_world)) = true /\
  exists lv ls,
    prints_line (PRINT_VAL lp64_header "UFFDIO_WRITEPROTECT_ASYNC")
                quiet_world lv /\
    prints_line (PRINT_SIZE lp64_header "UFFDIO_WRITEPROTECT_ASYNC")
                quiet_world ls /\
    prefix "UFFDIO_WRITEPROTECT_ASYNC" lv = true /\
    prefix "UFFDIO_WRITEPROTECT_ASYNC" ls = true /\
    value_column lv = 27 /\
    value_column ls = 27.
Proof.
  split; [reflexivity|]. split; [reflexivity|].
  destruct (wide_name_shifts_value lp64_header "UFFDIO_WRITEPROTECT_ASYNC"
                                   quiet_world eq_refl eq_refl)
    as (lv & ls & Hlv & Hls & Hpv & Hps & Hcv & Hcs & _).
  exists lv, ls. repeat split; assumption.
Defined.

(** X4: the report loses nothing: when the runs of two builds, started
    on the same standard output, leave the same text, the two builds give
    the same value to each of the nine identifiers and the same size to
    each of the ten structs. *)
Theorem report_determines_values (h1 h2 : header) (w1 w2 : world) :
  (forall k, stdout_writable w1 k = true) ->
  (forall k, stdout_writable w2 k = true) ->
  stdout w1 = stdout w2 ->
  final_stdout (main h1 w1) = final_stdout (main h2 w2) ->
  (forall n, In n identifier_names -> macro_value h1 n = macro_value h2 n) /\
  (forall n, In n struct_names -> sizeof_struct h1 n = sizeof_struct h2 n).
Proof.
  intros Hok1 Hok2 Hstart Hsame.
  destruct (main_output h1 w1 Hok1) as (w1' & Hrun1 & Hout1).
  destruct (main_output h2 w2 Hok2) as (w2' & Hrun2 & Hout2).
  rewrite Hrun1, Hrun2 in Hsame. apply some_inj in Hsame.
  change (stdout w1' = stdout w2') in Hsame.
  rewrite Hout1, Hout2, Hstart in Hsame.
  apply app_inv_head_str in Hsame.
  apply (f_equal lines) in Hsame. rewrite !lines_expected in Hsame.
  split; intros n Hin.
  - apply (f_equal (firstn 9)) in Hsame. rewrite !firstn_expected in Hsame.
    assert (Hl : identifier_line h1 n = identifier_line h2 n)
      by (revert n Hin; now apply map_ext_in_iff).
    assert (Hsp : string_forall not_space n = true).
    { unfold identifier_names in Hin. cbn [In] in Hin.
      repeat (destruct Hin as [<-|Hin]; [reflexivity|]). contradiction. }
    apply (f_equal value_field) in Hl. unfold identifier_line in Hl.
    rewrite !(value_field_text_line _ _ Hsp (utoa16_start _)) in Hl.
    apply (utoa_inj 16); [lia | lia | exact Hl].
  - apply (f_equal (skipn 9)) in Hsame. rewrite !skipn_expected in Hsame.
    assert (Hl : size_line h1 n = size_line h2 n)
      by (revert n Hin; now apply map_ext_in_iff).
    assert (Hsp : string_forall not_space n = true).
    { unfold struct_names in Hin. cbn [In] in Hin.
      repeat (destruct Hin as [<-|Hin]; [reflexivity|]). contradiction. }
    apply (f_equal value_field) in Hl. unfold size_line in Hl.
    rewrite !(value_field_text_line _ _ Hsp (utoa10_start _)) in Hl.
    apply (utoa_inj 10); [lia | lia | exact Hl].
Qed.

Lemma report_determines_values_witness :
  (forall k, stdout_writable quiet_world k = true) /\
  (forall k, stdout_writable busy_world k = true) /\
  stdout quiet_world = stdout busy_world /\
  final_stdout (main lp64_header quiet_world)
  = final_stdout (main ilp32_header busy_world) /\
  (forall n, In n identifier_names ->
             macro_value lp64_header n = macro_value ilp32_header n) /\
  (forall n, In n struct_names ->
             sizeof_struct lp64_header n = sizeof_struct ilp32_header n).
Proof.
  split; [intros k; reflexivity|]. split; [intros k; reflexivity|].
  split; [reflexivity|]. split; [vm_compute; reflexivity|].
  apply (report_determines_values lp64_header ilp32_header
                                  quiet_world busy_world);
    [intros k; reflexivity | intros k; reflexivity | reflexivity
    | vm_compute; reflexivity].
Defined.

(** X5: the value field has no padding of its own: a value of zero is
    printed as the single digit 0, and any other value starts with a
    digit other than 0, in the hexadecimal field of [PRINT_VAL] as in the
    decimal field of [PRINT_SIZE]. *)
Theorem value_field_has_no_leading_zero (hdr : header) (s : string) (w : world) :
  is_token s = true ->
  stdout_writable w (List.length (calls w)) = true ->
  exists lv ls,
    prints_line (PRINT_VAL hdr s) w lv /\
    prints_line (PRINT_SIZE hdr s) w ls /\
    (macro_value hdr s = 0%N -> value_field lv = "0") /\
    (macro_value hdr s <> 0%N -> prefix "0" (value_field lv) = false) /\
    (sizeof_struct hdr s = 0%N -> value_field ls = "0") /\
    (sizeof_struct hdr s <> 0%N -> prefix "0" (value_field ls) = false).
Proof.
  intros Htok Hok. apply is_token_split in Htok as [Hsp _].
  exists (identifier_line hdr s), (size_line hdr s).
  unfold identifier_line, size_line.
  rewrite (value_field_text_line _ _ Hsp (utoa16_start _)),
    (value_field_text_line _ _ Hsp (utoa10_start _)).
  assert (Hhead : forall base v, (2 <= base)%N -> (base <= 16)%N -> v <> 0%N ->
                                 prefix "0" (Digits.utoa base v) = false).
  { intros base v Hlo Hhi Hv.
    destruct (utoa_head base Hlo Hhi v) as (c & r & -> & Hc); [lia|].
    cbn [prefix]. destruct (Ascii.ascii_dec "0" c); [congruence | reflexivity]. }
  split; [now apply PRINT_VAL_prints|].
  split; [now apply PRINT_SIZE_prints|].
  split; [intros ->; reflexivity|].
  split; [apply Hhead; lia|].
  split; [intros ->; reflexivity | apply Hhead; lia].
Qed.

Lemma value_field_has_no_leading_zero_witness :
  is_token "uffd_msg" = true /\
  stdout_writable quiet_world (List.length (calls quiet_world)) = true /\
  exists lv ls,
    prints_line (PRINT_VAL lp64_header "uffd_msg") quiet_world lv /\
    prints_line (PRINT_SIZE lp64_header "uffd_msg") quiet_world ls /\
    (macro_value lp64_header "uffd_msg" = 0%N -> value_field lv = "0") /\
    (macro_value lp64_header "uffd_msg" <> 0%N ->
     prefix "0" (value_field lv) = false) /\
    (sizeof_struct lp64_header "uffd_msg" = 0%N -> value_field ls = "0") /\
    (sizeof_struct lp64_header "uffd_msg" <> 0%N ->
     prefix "0" (value_field ls) = false).
Proof.
  split; [reflexivity|]. split; [reflexivity|].
  apply (value_field_has_no_leading_zero lp64_header "uffd_msg" quiet_world);
    reflexivity.
Defined.

(** X6: an identifier below [16 ^ k] takes at most [k] hexadecimal
    digits, so its line has between 22 characters and [k + 1] more than
    the wider of the name and the 20-column field; a 32-bit request code
    under a name of at most 20 characters never makes a line longer than
    29 characters. *)
Theorem identifier_line_length (hdr : header) (s : string) (k : nat) (w : world) :
  is_token s = true ->
  stdout_writable w (List.length (calls w)) = true ->
  1 <= k ->
  (macro_value hdr s < 16 ^ N.of_nat k)%N ->
  exists l,
    prints_line (PRINT_VAL hdr s) w l /\
    1 <= String.length (value_field l) <= k /\
    22 <= String.length l <= Nat.max 20 (String.length s) + 1 + k.
Proof.
  intros Htok Hok Hk Hv. apply is_token_split in Htok as [Hsp _].
  exists (identifier_line hdr s).
  split; [now apply PRINT_VAL_prints|].
  unfold identifier_line.
  rewrite (value_field_text_line _ _ Hsp (utoa16_start _)).
  assert (Hlo : 1 <= String.length (Digits.utoa 16 (macro_value hdr s))).
  { pose proof (utoa_nonempty 16 (macro_value hdr s)) as Hne.
    destruct (Digits.utoa 16 (macro_value hdr s)); [congruence | simpl; lia]. }
  assert (Hhi : String.length (Digits.utoa 16 (macro_value hdr s)) <= k)
    by (apply utoa_length; [lia | lia | exact Hk | exact Hv]).
  split; [lia|].
  unfold text_line. rewrite length_app_str, length_field20_max.
  cbn [String.length]. lia.
Qed.

Lemma identifier_line_length_witness :
  is_token "UFFDIO_REGISTER" = true /\
  stdout_writable quiet_world (List.length (calls quiet_world)) = true /\
  1 <= 8 /\
  (macro_value lp64_header "UFFDIO_REGISTER" < 16 ^ N.of_nat 8)%N /\
  exists l,
    prints_line (PRINT_VAL lp64_header "UFFDIO_REGISTER") quiet_world l /\
    1 <= String.length (value_field l) <= 8 /\
    22 <= String.length l <= 29.
Proof.
  split; [reflexivity|]. split; [reflexivity|]. split; [lia|].
  split; [reflexivity|].
  apply (identifier_line_length lp64_header "UFFDIO_REGISTER" 8 quiet_world);
    [reflexivity | reflexivity | lia | reflexivity].
Defined.

(** X7: the macros compose: any sequence of [PRINT_VAL] statements
    followed by [PRINT_SIZE] statements and a return, on a stream that
    takes every write, returns the given status and prints one line per
    statement, in the order of the statements, each under the name it was
    given. *)
Theorem macros_compose (hdr : header) (ids structs : list string) (status : Z)
        (w : world) :
  (forall k, stdout_writable w k = true) ->
  Forall (fun s => is_token s = true) (ids ++ structs)%list ->
  exists w' out,
    sequence (map (PRINT_VAL hdr) ids ++ map (PRINT_SIZE hdr) structs)%list
             status w = Returned (status, w') /\
    stdout w' = stdout w ++ out /\
    lines out = (map (identifier_line hdr) ids
                 ++ map (size_line hdr) structs)%list /\
    map name_field (lines out) = (ids ++ structs)%list /\
    List.length (lines out) = List.length ids + List.length structs /\
    calls w' = (calls w ++ map (val_call hdr) ids
                ++ map (size_call hdr) structs)%list.
Proof.
  intros Hok Htok.
  assert (Hlen : List.length (map (val_call hdr) ids
                              ++ map (size_call hdr) structs)%list
                 = List.length (map (identifier_line hdr) ids
                                ++ map (size_line hdr) structs)%list)
    by (rewrite !length_app, !length_map; reflexivity).
  eexists _, (unlines (map (identifier_line hdr) ids
                       ++ map (size_line hdr) structs)%list).
  split; [rewrite sequence_macros_run; apply (run_writes_taken _ _ _ Hok)|].
  rewrite write_all_stdout, (accepted_all _ _ _ Hok), (map_snd_combine _ _ Hlen).
  rewrite (lines_unlines _ (macro_lines_not_nl hdr ids structs Htok)).
  split; [reflexivity|]. split; [reflexivity|].
  split; [now apply macro_lines_names|].
  split; [rewrite length_app, !length_map; reflexivity|].
  destruct (write_all_frame
              (combine (map (val_call hdr) ids ++ map (size_call hdr) structs)
                       (map (identifier_line hdr) ids
                        ++ map (size_line hdr) structs))%list w)
    as (_ & _ & _ & _ & Hc).
  now rewrite Hc, (map_fst_combine _ _ Hlen).
Qed.

Lemma macros_compose_witness :
  (forall k, stdout_writable quiet_world k = true) /\
  Forall (fun s => is_token s = true) (["UFFDIO_WAKE"] ++ ["uffd_msg"])%list /\
  exists w' out,
    sequence (map (PRINT_VAL lp64_header) ["UFFDIO_WAKE"]
              ++ map (PRINT_SIZE lp64_header) ["uffd_msg"])%list
             7%Z quiet_world = Returned (7%Z, w') /\
    stdout w' = out /\
    map name_field (lines out) = ["UFFDIO_WAKE"; "uffd_msg"].
Proof.
  split; [intros k; reflexivity|].
  split; [repeat constructor|].
  destruct (macros_compose lp64_header ["UFFDIO_WAKE"] ["uffd_msg"] 7%Z
                           quiet_world (fun _ => eq_refl))
    as (w' & out & Hrun & Hout & _ & Hn & _); [repeat constructor|].
  exists w', out. repeat split; assumption.
Defined.
